(** * BaseAdapter: lifecycle guards and chain-configuration merging

    A shallow embedding of [packages/base/src/adapter/IAdapter.ts]: the
    abstract [BaseAdapter] class, its settings update, its chain-config
    upsert and the five precondition guards.

    Conventions of the embedding:
    - a JavaScript primitive is a [JSVal]; numbers are integers (no NaN,
      no fractions), which is all the adapter settings use;
    - a string is a sequence of code units, here 8-bit characters;
    - a chain config is a plain object, the [gmap string JSVal] of its own
      enumerable properties; the three fields the adapter reads from one
      ([chainNamespace], [chainId], [rpcTarget]) are no members of
      [Object.prototype], so those reads are own-property reads;
    - the known-chains object is written and read with arbitrary keys, so
      it is modelled with its prototype chain: its own properties, and its
      prototype, which is [Object.prototype] until an assignment to the
      key [__proto__] replaces it with a chain config object;
    - a method is a function from the adapter to a completion (normal or
      thrown error) paired with the adapter as the method left it, so a
      method that throws half-way keeps the fields it already wrote. *)

From Stdlib Require Import Ascii.
From stdpp Require Import gmap strings pretty fin_maps.

Local Open Scope string_scope.
Local Open Scope Z_scope.

(** ** JavaScript values *)

Inductive JSVal : Type :=
  | JUndefined
  | JNull
  | JBool (b : bool)
  | JNum (n : Z)
  | JStr (s : string).

#[global] Instance JSVal_eq_dec : EqDecision JSVal.
Proof. solve_decision. Defined.

(** [ToBoolean]: what [if (v)] and [!v] test. *)
Definition truthy (v : JSVal) : bool :=
  match v with
  | JUndefined | JNull => false
  | JBool b => b
  | JNum n => negb (n =? 0)
  | JStr s => negb (String.eqb s "")
  end.

(** [v1 === v2] on primitives. *)
Definition strict_eq (v1 v2 : JSVal) : bool := bool_decide (v1 = v2).

(** [ToPropertyKey]: the string under which [obj[v]] reads and writes. *)
Definition toPropertyKey (v : JSVal) : string :=
  match v with
  | JUndefined => "undefined"
  | JNull => "null"
  | JBool true => "true"
  | JBool false => "false"
  | JNum n => pretty n
  | JStr s => s
  end.

(** An optional field of a typed options object, seen as a value. *)
Definition of_opt {A} (inj : A → JSVal) (o : option A) : JSVal :=
  match o with Some x => inj x | None => JUndefined end.

(** ** Chain configurations *)

(** [CustomChainConfig]: an object with named fields. *)
Abbreviation CustomChainConfig := (gmap string JSVal).

(** [c.k]: a missing property reads as [undefined]. *)
Definition prop (c : CustomChainConfig) (k : string) : JSVal :=
  default JUndefined (c !! k).

(** [{ ...base, ...over }]: every own key of [over] wins. *)
Definition spread (base over : CustomChainConfig) : CustomChainConfig :=
  over ∪ base.

(** [o || {}] for an object-or-null [o]. *)
Definition or_empty (o : option CustomChainConfig) : CustomChainConfig :=
  default ∅ o.

(** ** The known-chains object *)

(** The methods of [Object.prototype] in a standard environment: writable,
    non-enumerable data properties that hold functions. Its one accessor,
    [__proto__], is treated apart in [getProperty] and [setProperty]. *)
Definition Object_prototype_methods : list string :=
  ["constructor"; "hasOwnProperty"; "isPrototypeOf"; "propertyIsEnumerable";
   "toLocaleString"; "toString"; "valueOf";
   "__defineGetter__"; "__defineSetter__"; "__lookupGetter__"; "__lookupSetter__"].

(** What a read [knownChainConfigs[k]] can give: an object that holds the
    fields of a chain config, a primitive ([undefined] included), a method
    of [Object.prototype], or [Object.prototype] itself. *)
Inductive KnownValue : Type :=
  | KConfig (e : CustomChainConfig)
  | KPrim (v : JSVal)
  | KFunction (name : string)
  | KObjectPrototype.

#[global] Instance KnownValue_eq_dec : EqDecision KnownValue.
Proof. solve_decision. Defined.

(** [ToBoolean] of such a value: objects and functions are truthy. *)
Definition truthy_known (x : KnownValue) : bool :=
  match x with
  | KPrim v => truthy v
  | KConfig _ | KFunction _ | KObjectPrototype => true
  end.

(** The own enumerable properties of the string [s] seen as an object:
    its characters under their indices, counted from [i]. *)
Fixpoint string_props (i : nat) (s : string) : CustomChainConfig :=
  match s with
  | EmptyString => ∅
  | String a s' => <[pretty i := JStr (String a EmptyString)]> (string_props (S i) s')
  end.

(** What [{ ...x }] copies from [x]: the fields of a config object, the
    characters of a string, nothing from another primitive, from a built-in
    function or from [Object.prototype], none of whose own properties is
    enumerable. *)
Definition own_enumerable (x : KnownValue) : CustomChainConfig :=
  match x with
  | KConfig e => e
  | KPrim (JStr s) => string_props 0 s
  | KPrim _ | KFunction _ | KObjectPrototype => ∅
  end.

(** [x || {}] *)
Definition or_empty_known (x : KnownValue) : KnownValue :=
  if truthy_known x then x else KConfig ∅.

(** The object [knownChainConfigs]: its own properties, all created by
    assignments of config objects, and its prototype when that is no longer
    [Object.prototype] but a config object (whose own prototype is
    [Object.prototype]). *)
Record KnownChainConfigs : Type := mkKnown {
  kc_own : gmap string CustomChainConfig;
  kc_proto : option CustomChainConfig
}.

(** [{}] *)
#[global] Instance KnownChainConfigs_empty : Empty KnownChainConfigs := mkKnown ∅ None.

(** The read of [k] that reaches [Object.prototype]: the accessor
    [__proto__] returns the prototype of the object read from, a method
    name gives the method, any other name [undefined]. *)
Definition Object_prototype_get (known : KnownChainConfigs) (k : string) : KnownValue :=
  if bool_decide (k = "__proto__") then
    match kc_proto known with
    | Some p => KConfig p
    | None => KObjectPrototype
    end
  else if bool_decide (k ∈ Object_prototype_methods) then KFunction k
  else KPrim JUndefined.

(** [known[k]]: an own property, else a property of the replaced
    prototype, else what [Object.prototype] gives. *)
Definition getProperty (known : KnownChainConfigs) (k : string) : KnownValue :=
  match kc_own known !! k with
  | Some e => KConfig e
  | None =>
      match kc_proto known with
      | Some p =>
          match p !! k with
          | Some v => KPrim v
          | None => Object_prototype_get known k
          end
      | None => Object_prototype_get known k
      end
  end.

(** [known[k] = v] for a config object [v]: an own property is updated; a
    data property found on the prototype chain makes the assignment define
    an own property; the accessor [__proto__] of [Object.prototype] replaces
    the prototype by [v]; a name found nowhere becomes an own property. *)
Definition setProperty (known : KnownChainConfigs) (k : string) (v : CustomChainConfig)
  : KnownChainConfigs :=
  let define := mkKnown (<[k := v]> (kc_own known)) (kc_proto known) in
  if bool_decide (is_Some (kc_own known !! k)) then define
  else if bool_decide (is_Some (kc_proto known ≫= (.!! k))) then define
  else if bool_decide (k = "__proto__") then mkKnown (kc_own known) (Some v)
  else define.

(** ** Status, categories, errors *)

Inductive ADAPTER_STATUS : Type :=
  | NOT_READY
  | READY
  | CONNECTING
  | CONNECTED
  | DISCONNECTED
  | ERRORED.

#[global] Instance ADAPTER_STATUS_eq_dec : EqDecision ADAPTER_STATUS.
Proof. solve_decision. Defined.

Inductive ADAPTER_CATEGORY : Type :=
  | EXTERNAL
  | IN_APP.

(** Modelled from the spec: the [errors] module is not part of the
    sources at hand. Section 7 of the specification lists the error kinds;
    each factory called by the adapter tags its message with one kind. *)
Inductive ErrorKind : Type :=
  | InvalidParams
  | NotReady
  | ConnectionError
  | DisconnectionError
  | NotConnectedError
  | ChainNamespaceNotAllowed
  | ChainConfigNotAdded.

#[global] Instance ErrorKind_eq_dec : EqDecision ErrorKind.
Proof. solve_decision. Defined.

Record Web3AuthError : Type := mkError {
  kind : ErrorKind;
  message : string
}.

Module WalletInitializationError.
Definition notReady (msg : string) : Web3AuthError := mkError NotReady msg.
Definition invalidParams (msg : string) : Web3AuthError := mkError InvalidParams msg.
End WalletInitializationError.

Module WalletLoginError.
Definition connectionError (msg : string) : Web3AuthError := mkError ConnectionError msg.
Definition disconnectionError (msg : string) : Web3AuthError := mkError DisconnectionError msg.
Definition notConnectedError (msg : string) : Web3AuthError := mkError NotConnectedError msg.
Definition chainConfigNotAdded (msg : string) : Web3AuthError := mkError ChainConfigNotAdded msg.
End WalletLoginError.

Module WalletOperationsError.
Definition chainNamespaceNotAllowed (msg : string) : Web3AuthError :=
  mkError ChainNamespaceNotAllowed msg.
End WalletOperationsError.

(** ** Settings and adapter state *)

Record BaseAdapterSettings : Type := mkSettings {
  o_clientId : option string;
  o_sessionTime : option Z;
  o_chainConfig : option CustomChainConfig;
  o_web3AuthNetwork : option string;
  o_useCoreKitKey : option bool
}.

(** The live provider handle; the guards only test its presence. *)
Record IProvider : Type := mkProvider {
  provider_chainId : string
}.

(** The fields of a [BaseAdapter] instance, the abstract members that a
    concrete adapter supplies included. [clientId] has no initialiser and
    [useCoreKitKey] is initialised to [undefined], hence the options. *)
Record BaseAdapter : Type := mkAdapter {
  sessionTime : Z;
  clientId : option string;
  web3AuthNetwork : string;
  useCoreKitKey : option bool;
  rehydrated : bool;
  chainConfig : option CustomChainConfig;
  knownChainConfigs : KnownChainConfigs;
  adapterNamespace : string;
  currentChainNamespace : JSVal;
  type : ADAPTER_CATEGORY;
  name : string;
  status : ADAPTER_STATUS;
  provider : option IProvider
}.

Definition set_sessionTime (v : Z) (a : BaseAdapter) : BaseAdapter :=
  mkAdapter v (clientId a) (web3AuthNetwork a) (useCoreKitKey a) (rehydrated a)
    (chainConfig a) (knownChainConfigs a) (adapterNamespace a)
    (currentChainNamespace a) (type a) (name a) (status a) (provider a).

Definition set_clientId (v : string) (a : BaseAdapter) : BaseAdapter :=
  mkAdapter (sessionTime a) (Some v) (web3AuthNetwork a) (useCoreKitKey a) (rehydrated a)
    (chainConfig a) (knownChainConfigs a) (adapterNamespace a)
    (currentChainNamespace a) (type a) (name a) (status a) (provider a).

Definition set_web3AuthNetwork (v : string) (a : BaseAdapter) : BaseAdapter :=
  mkAdapter (sessionTime a) (clientId a) v (useCoreKitKey a) (rehydrated a)
    (chainConfig a) (knownChainConfigs a) (adapterNamespace a)
    (currentChainNamespace a) (type a) (name a) (status a) (provider a).

Definition set_useCoreKitKey (v : bool) (a : BaseAdapter) : BaseAdapter :=
  mkAdapter (sessionTime a) (clientId a) (web3AuthNetwork a) (Some v) (rehydrated a)
    (chainConfig a) (knownChainConfigs a) (adapterNamespace a)
    (currentChainNamespace a) (type a) (name a) (status a) (provider a).

Definition set_chainConfig (v : CustomChainConfig) (a : BaseAdapter) : BaseAdapter :=
  mkAdapter (sessionTime a) (clientId a) (web3AuthNetwork a) (useCoreKitKey a) (rehydrated a)
    (Some v) (knownChainConfigs a) (adapterNamespace a)
    (currentChainNamespace a) (type a) (name a) (status a) (provider a).

Definition set_knownChainConfigs (v : KnownChainConfigs) (a : BaseAdapter)
  : BaseAdapter :=
  mkAdapter (sessionTime a) (clientId a) (web3AuthNetwork a) (useCoreKitKey a) (rehydrated a)
    (chainConfig a) v (adapterNamespace a)
    (currentChainNamespace a) (type a) (name a) (status a) (provider a).

Definition set_currentChainNamespace (v : JSVal) (a : BaseAdapter) : BaseAdapter :=
  mkAdapter (sessionTime a) (clientId a) (web3AuthNetwork a) (useCoreKitKey a) (rehydrated a)
    (chainConfig a) (knownChainConfigs a) (adapterNamespace a)
    v (type a) (name a) (status a) (provider a).

(** ** Methods: state passing with exceptions *)

Inductive Completion (A : Type) : Type :=
  | Normal (x : A)
  | Throw (e : Web3AuthError).
Arguments Normal {A} x.
Arguments Throw {A} e.

Definition Method (A : Type) : Type := BaseAdapter → Completion A * BaseAdapter.

#[global] Instance Method_ret : MRet Method := λ A x this, (Normal x, this).

#[global] Instance Method_bind : MBind Method := λ A B k m this,
  match m this with
  | (Normal x, this') => k x this'
  | (Throw e, this') => (Throw e, this')
  end.

(** [throw e] *)
Definition throw {A} (e : Web3AuthError) : Method A := λ this, (Throw e, this).

(** Read a field of [this]. *)
Definition read {A} (f : BaseAdapter → A) : Method A := λ this, (Normal (f this), this).

(** Assign a field of [this]. *)
Definition assign (f : BaseAdapter → BaseAdapter) : Method unit :=
  λ this, (Normal tt, f this).

(** [if (b) throw e;] *)
Definition throw_if (b : bool) (e : Web3AuthError) : Method unit :=
  if b then throw e else mret tt.

(** [if (b) { m }] *)
Definition when (b : bool) (m : Method unit) : Method unit :=
  if b then m else mret tt.

Definition completion {A} (r : Completion A * BaseAdapter) : Completion A := fst r.
Definition after {A} (r : Completion A * BaseAdapter) : BaseAdapter := snd r.

(** ** The class *)

Section BaseAdapter.

(** [WALLET_ADAPTERS.WALLET_CONNECT_V2], from the [wallet] module. *)
Variable WALLET_CONNECT_V2 : string.

(** [CHAIN_NAMESPACES.OTHER], from the chain interface module. *)
Variable OTHER : string.

(** The chain registry [getChainConfig(chainNamespace, chainId)] of the
    [chain/config] module: a pure lookup giving a default configuration
    or [null]. *)
Variable getChainConfig : JSVal → JSVal → option CustomChainConfig.

(** [addChainConfig(chainConfig)] *)
Definition addChainConfig (chainConfig : CustomChainConfig) : Method unit :=
  known ← read knownChainConfigs;
  let key := toPropertyKey (prop chainConfig "chainId") in
  let currentConfig := getProperty known key in
  assign (set_knownChainConfigs
            (setProperty known key
               (spread (own_enumerable (or_empty_known currentConfig)) chainConfig))).

(** The method [getChainConfig(chainId)] of the class (the registry
    function of the same name is the section variable above):
    [this.knownChainConfigs[chainId] || null]. *)
Definition this_getChainConfig (chainId : string) : Method KnownValue :=
  known ← read knownChainConfigs;
  let found := getProperty known chainId in
  mret (if truthy_known found then found else KPrim JNull).

(** [setAdapterSettings(options)] *)
Definition setAdapterSettings (options : BaseAdapterSettings) : Method unit :=
  st ← read status;
  if bool_decide (st = READY) then mret tt else
  match o_sessionTime options with
  | Some t => when (truthy (JNum t)) (assign (set_sessionTime t))
  | None => mret tt
  end;;
  match o_clientId options with
  | Some c => when (truthy (JStr c)) (assign (set_clientId c))
  | None => mret tt
  end;;
  match o_web3AuthNetwork options with
  | Some n => when (truthy (JStr n)) (assign (set_web3AuthNetwork n))
  | None => mret tt
  end;;
  match o_useCoreKitKey options with
  | Some b => assign (set_useCoreKitKey b)
  | None => mret tt
  end;;
  match o_chainConfig options with
  | Some customChainConfig =>
      throw_if (negb (truthy (prop customChainConfig "chainNamespace")))
        (WalletInitializationError.notReady
           "ChainNamespace is required while setting chainConfig");;
      assign (set_currentChainNamespace (prop customChainConfig "chainNamespace"));;
      let defaultChainConfig :=
        getChainConfig (prop customChainConfig "chainNamespace")
                       (prop customChainConfig "chainId") in
      let finalChainConfig := spread (or_empty defaultChainConfig) customChainConfig in
      assign (set_chainConfig finalChainConfig);;
      addChainConfig finalChainConfig
  | None => mret tt
  end.

(** [checkConnectionRequirements()] *)
Definition checkConnectionRequirements : Method unit :=
  nm ← read name;
  st ← read status;
  if bool_decide (nm = WALLET_CONNECT_V2) && bool_decide (st = CONNECTING) then mret tt
  else
    throw_if (bool_decide (st = CONNECTING))
      (WalletInitializationError.notReady "Already connecting");;
    throw_if (bool_decide (st = CONNECTED))
      (WalletLoginError.connectionError "Already connected");;
    throw_if (negb (bool_decide (st = READY)))
      (WalletLoginError.connectionError
         "Wallet adapter is not ready yet, Please wait for init function to resolve before calling connect/connectTo function").

(** [checkInitializationRequirements()] *)
Definition checkInitializationRequirements : Method unit :=
  cid ← read clientId;
  throw_if (negb (truthy (of_opt JStr cid)))
    (WalletInitializationError.invalidParams
       "Please initialize Web3Auth with a valid clientId in constructor");;
  cfg ← read chainConfig;
  match cfg with
  | None =>
      throw (WalletInitializationError.invalidParams "rpcTarget is required in chainConfig")
  | Some c =>
      throw_if (negb (truthy (prop c "rpcTarget"))
                && negb (strict_eq (prop c "chainNamespace") (JStr OTHER)))
        (WalletInitializationError.invalidParams "rpcTarget is required in chainConfig");;
      throw_if (negb (truthy (prop c "chainId"))
                && negb (strict_eq (prop c "chainNamespace") (JStr OTHER)))
        (WalletInitializationError.invalidParams "chainID is required in chainConfig");;
      st ← read status;
      if bool_decide (st = NOT_READY) then mret tt else
      throw_if (bool_decide (st = CONNECTED))
        (WalletInitializationError.notReady "Already connected");;
      throw_if (bool_decide (st = READY))
        (WalletInitializationError.notReady "Adapter is already initialized")
  end.

(** [checkDisconnectionRequirements()] *)
Definition checkDisconnectionRequirements : Method unit :=
  st ← read status;
  throw_if (negb (bool_decide (st = CONNECTED)))
    (WalletLoginError.disconnectionError "Not connected with wallet").

(** [checkAddChainRequirements(chainConfig, init = false)] *)
Definition checkAddChainRequirements (chainConfig : CustomChainConfig) (init : bool)
  : Method unit :=
  p ← read provider;
  throw_if (negb init && negb (bool_decide (is_Some p)))
    (WalletLoginError.notConnectedError "Not connected with wallet.");;
  ns ← read currentChainNamespace;
  throw_if (negb (strict_eq ns (prop chainConfig "chainNamespace")))
    (WalletOperationsError.chainNamespaceNotAllowed
       "This adapter doesn't support this chainNamespace").

(** [checkSwitchChainRequirements({ chainId }, init = false)] *)
Definition checkSwitchChainRequirements (chainId : string) (init : bool) : Method unit :=
  p ← read provider;
  throw_if (negb init && negb (bool_decide (is_Some p)))
    (WalletLoginError.notConnectedError "Not connected with wallet.");;
  known ← read knownChainConfigs;
  throw_if (negb (truthy_known (getProperty known chainId)))
    (WalletLoginError.chainConfigNotAdded "Invalid chainId").

(** The getter [connnected]. *)
Definition connnected : Method bool :=
  st ← read status;
  mret (bool_decide (st = CONNECTED)).

(** The getter [chainConfigProxy]: a copy of the active chain config. *)
Definition chainConfigProxy : Method (option CustomChainConfig) :=
  cfg ← read chainConfig;
  mret (match cfg with Some c => Some (spread ∅ c) | None => None end).

End BaseAdapter.

(** ** Auxiliary definitions for the statements *)

(** The adapter after the four scalar updates of [setAdapterSettings]
    (session time, client id, network, core-kit flag), as one pure function. *)
Definition scalar_settings (options : BaseAdapterSettings) (this : BaseAdapter) : BaseAdapter :=
  let a1 := match o_sessionTime options with
            | Some t => if truthy (JNum t) then set_sessionTime t this else this
            | None => this
            end in
  let a2 := match o_clientId options with
            | Some c => if truthy (JStr c) then set_clientId c a1 else a1
            | None => a1
            end in
  let a3 := match o_web3AuthNetwork options with
            | Some n => if truthy (JStr n) then set_web3AuthNetwork n a2 else a2
            | None => a2
            end in
  match o_useCoreKitKey options with
  | Some b => set_useCoreKitKey b a3
  | None => a3
  end.

(** Whether the settings read by the init-guard are acceptable: a client
    id, a chain config, and in that config an RPC target and a chain id
    unless the namespace is [OTHER]. *)
Definition init_params_ok (OTHER : string) (this : BaseAdapter) : Prop :=
  truthy (of_opt JStr (clientId this)) = true
  ∧ ∃ c, chainConfig this = Some c
         ∧ (prop c "chainNamespace" = JStr OTHER
            ∨ (truthy (prop c "rpcTarget") = true ∧ truthy (prop c "chainId") = true)).

(** The key under which [addChainConfig] files a configuration. *)
Definition chainKey (c : CustomChainConfig) : string :=
  toPropertyKey (prop c "chainId").

(** A chain id is registered when reading it from the known-chains
    object gives a config object. *)
Definition registered (chainId : string) (this : BaseAdapter) : Prop :=
  ∃ e : CustomChainConfig, getProperty (knownChainConfigs this) chainId = KConfig e.

(** Where an assignment [knownChainConfigs[k] = v] puts [v]: an own
    property, or for [__proto__] the prototype. *)
Definition stored (known : KnownChainConfigs) (k : string) : option CustomChainConfig :=
  match kc_own known !! k with
  | Some e => Some e
  | None => if bool_decide (k = "__proto__") then kc_proto known else None
  end.


(** A config is ordinary unless its chain id is [__proto__] and it has an
    own property of that name too. *)
Definition ordinary (c : CustomChainConfig) : Prop :=
  chainKey c = "__proto__" → c !! "__proto__" = None.

(** The config that [setAdapterSettings] stores for the caller's [c]. *)
Definition finalChainConfig (getChainConfig : JSVal → JSVal → option CustomChainConfig)
    (c : CustomChainConfig) : CustomChainConfig :=
  spread (or_empty (getChainConfig (prop c "chainNamespace") (prop c "chainId"))) c.

(** The config that [addChainConfig] writes: the given one spread over
    what the read of its chain id gives. *)
Definition entry_for (known : KnownChainConfigs) (c : CustomChainConfig) : CustomChainConfig :=
  spread (own_enumerable (or_empty_known (getProperty known (chainKey c)))) c.

(** The calls that write the known-chains object, for stating what survives
    a history of such calls. A caller that catches a thrown error goes on
    with the adapter as the failed call left it. *)
Inductive Call : Type :=
  | CallAddChainConfig (c : CustomChainConfig)
  | CallSetAdapterSettings (options : BaseAdapterSettings).

Definition call (getChainConfig : JSVal → JSVal → option CustomChainConfig)
    (op : Call) (this : BaseAdapter) : BaseAdapter :=
  match op with
  | CallAddChainConfig c => after (addChainConfig c this)
  | CallSetAdapterSettings o => after (setAdapterSettings getChainConfig o this)
  end.

Definition calls (getChainConfig : JSVal → JSVal → option CustomChainConfig)
    (ops : list Call) (this : BaseAdapter) : BaseAdapter :=
  foldl (λ a op, call getChainConfig op a) this ops.

(** A call is ordinary when the config it registers is. *)
Definition ordinary_call (getChainConfig : JSVal → JSVal → option CustomChainConfig)
    (op : Call) : Prop :=
  match op with
  | CallAddChainConfig c => ordinary c
  | CallSetAdapterSettings o =>
      ∀ c, o_chainConfig o = Some c → ordinary (finalChainConfig getChainConfig c)
  end.

(** ** Sample data *)

Module Sample.

Definition WALLET_CONNECT_V2 : string := "wallet-connect-v2".
Definition OTHER : string := "other".

Definition mainnet : CustomChainConfig :=
  list_to_map
    [("chainNamespace", JStr "eip155");
     ("rpcTarget", JStr "https://rpc.ankr.com/eth");
     ("blockExplorerUrl", JStr "https://etherscan.io");
     ("logo", JStr "https://cryptologos.cc/logos/ethereum-eth-logo.png");
     ("chainId", JStr "0x1");
     ("ticker", JStr "ETH");
     ("tickerName", JStr "Ethereum")].

(** A registry knowing Ethereum mainnet, which is also its default when
    no chain id is given. *)
Definition registry (ns chainId : JSVal) : option CustomChainConfig :=
  if strict_eq ns (JStr "eip155")
     && (strict_eq chainId (JStr "0x1") || strict_eq chainId JUndefined)
  then Some mainnet else None.

(** A freshly constructed adapter of an external EVM wallet. *)
Definition fresh : BaseAdapter :=
  mkAdapter 86400 None "mainnet" None false None ∅
    "eip155" (JStr "eip155") EXTERNAL "metamask" NOT_READY None.

Definition with_status (s : ADAPTER_STATUS) (a : BaseAdapter) : BaseAdapter :=
  mkAdapter (sessionTime a) (clientId a) (web3AuthNetwork a) (useCoreKitKey a)
    (rehydrated a) (chainConfig a) (knownChainConfigs a) (adapterNamespace a)
    (currentChainNamespace a) (type a) (name a) s (provider a).

Definition with_name (n : string) (a : BaseAdapter) : BaseAdapter :=
  mkAdapter (sessionTime a) (clientId a) (web3AuthNetwork a) (useCoreKitKey a)
    (rehydrated a) (chainConfig a) (knownChainConfigs a) (adapterNamespace a)
    (currentChainNamespace a) (type a) n (status a) (provider a).

Definition with_provider (p : option IProvider) (a : BaseAdapter) : BaseAdapter :=
  mkAdapter (sessionTime a) (clientId a) (web3AuthNetwork a) (useCoreKitKey a)
    (rehydrated a) (chainConfig a) (knownChainConfigs a) (adapterNamespace a)
    (currentChainNamespace a) (type a) (name a) (status a) p.

(** Caller settings: a client id and a partial chain config that
    overrides the ticker and leaves the rest to the registry. *)
Definition callerConfig : CustomChainConfig :=
  list_to_map [("chainNamespace", JStr "eip155"); ("chainId", JStr "0x1");
               ("ticker", JStr "WETH")].

Definition settings : BaseAdapterSettings :=
  mkSettings (Some "abc") None (Some callerConfig) None None.

(** Settings whose chain config has no namespace. *)
Definition settingsNoNamespace : BaseAdapterSettings :=
  mkSettings (Some "abc") (Some 3600) (Some {[ "chainId" := JStr "0x1" ]}) None None.

(** Settings with falsy scalars and an explicit [useCoreKitKey: false]. *)
Definition settingsFalsy : BaseAdapterSettings :=
  mkSettings (Some "") (Some 0) None (Some "") (Some false).

(** The adapter once configured. *)
Definition configured : BaseAdapter := after (setAdapterSettings registry settings fresh).

Definition mainnetPatch : CustomChainConfig :=
  list_to_map [("chainId", JStr "0x1"); ("displayName", JStr "Main")].

(** A config registered under the chain id [__proto__]. *)
Definition protoConfig : CustomChainConfig :=
  list_to_map [("chainId", JStr "__proto__"); ("ticker", JStr "ETH")].


End Sample.

(** ** Invariants of the chain state *)

(** Every config held by the known-chains object is filed under its own
    chain id. *)
Definition keyed (this : BaseAdapter) : Prop :=
  ∀ (k : string) (e : CustomChainConfig),
    stored (knownChainConfigs this) k = Some e → chainKey e = k.

(** The active chain config is of the current namespace and its chain id
    is registered. *)
Definition active_ok (this : BaseAdapter) : Prop :=
  ∀ c : CustomChainConfig,
    chainConfig this = Some c →
    prop c "chainNamespace" = currentChainNamespace this
    ∧ registered (chainKey c) this.

(** ** The demo application's configuration tables *)

(** [{ name, value }], an entry of a select box. *)
Record SelectOption : Type := mkOption {
  opt_name : string;
  opt_value : string
}.

(** The object literal of [defaultLoginMethod]. *)
Record FormConfigSettings : Type := mkFormConfig {
  fc_name : string;
  fc_description : string;
  fc_logoHover : string;
  fc_logoLight : string;
  fc_logoDark : string;
  fc_mainOption : bool;
  fc_showOnModal : bool;
  fc_showOnDesktop : bool;
  fc_showOnMobile : bool
}.

(** [s.replaceAll(pat, rep)] for a pattern and a replacement of one
    character each, as in [x.replaceAll("_", " ")]. *)
Fixpoint replaceAll (pat rep : Ascii.ascii) (s : string) : string :=
  match s with
  | EmptyString => EmptyString
  | String a s' => String (if Ascii.eqb a pat then rep else a) (replaceAll pat rep s')
  end.

Section Demo.

(** [Object.values(LOGIN_PROVIDER)], of the auth library. *)
Variable LOGIN_PROVIDER : list string.

(** The namespace constants [CHAIN_NAMESPACES.EIP155] and so on. *)
Variables EIP155 SOLANA CASPER XRPL OTHER : string.

(** [import.meta.env.VITE_SOLANA_MAINNET_RPC] *)
Variable VITE_SOLANA_MAINNET_RPC : JSVal.

(** [loginProviderOptions] *)
Definition loginProviderOptions : list SelectOption :=
  (λ x, mkOption (replaceAll "_"%char " "%char x) x)
    <$> filter (λ x, x ≠ "jwt" ∧ x ≠ "webauthn") LOGIN_PROVIDER.

(** [defaultLoginMethod]: [{ ...acc, [curr.value]: { ... } }] is an insert. *)
Definition defaultLoginMethod : gmap string FormConfigSettings :=
  foldl (λ acc curr,
           <[opt_value curr :=
               mkFormConfig (opt_name curr +:+ " login") "" "" "" ""
                 false false false false]> acc)
    ∅ loginProviderOptions.

(** [chainConfigs]: an object literal with computed keys, filled in the
    order of the source. *)
Definition chainConfigs : gmap string (list CustomChainConfig) :=
  <[OTHER := []]>
  (<[XRPL := []]>
  (<[CASPER := []]>
  (<[SOLANA :=
      [ list_to_map
          [("chainNamespace", JStr SOLANA);
           ("rpcTarget", JStr "https://api.devnet.solana.com");
           ("blockExplorerUrl", JStr "https://solscan.io");
           ("logo", JStr "https://cryptologos.cc/logos/solana-sol-logo.png");
           ("chainId", JStr "0x3");
           ("ticker", JStr "SOL");
           ("tickerName", JStr "Solana Devnet")];
        list_to_map
          [("chainNamespace", JStr SOLANA);
           ("rpcTarget", VITE_SOLANA_MAINNET_RPC);
           ("blockExplorerUrl", JStr "https://explorer.solana.com");
           ("logo", JStr "https://cryptologos.cc/logos/solana-sol-logo.png");
           ("chainId", JStr "0x1");
           ("ticker", JStr "SOL");
           ("tickerName", JStr "Solana Mainnet")] ]]>
  (<[EIP155 :=
      [ list_to_map
          [("chainNamespace", JStr EIP155);
           ("rpcTarget", JStr "https://rpc.ankr.com/eth");
           ("blockExplorerUrl", JStr "https://etherscan.io");
           ("logo", JStr "https://cryptologos.cc/logos/ethereum-eth-logo.png");
           ("chainId", JStr "0x1");
           ("ticker", JStr "ETH");
           ("tickerName", JStr "Ethereum")];
        list_to_map
          [("chainNamespace", JStr EIP155);
           ("rpcTarget", JStr "https://rpc.ankr.com/eth_sepolia");
           ("blockExplorerUrl", JStr "https://sepolia.etherscan.io");
           ("logo", JStr "https://cryptologos.cc/logos/ethereum-eth-logo.png");
           ("chainId", JStr "0xaa36a7");
           ("ticker", JStr "ETH");
           ("tickerName", JStr "Sepolia Testnet")];
        list_to_map
          [("chainNamespace", JStr EIP155);
           ("rpcTarget", JStr "https://data-seed-prebsc-2-s3.binance.org:8545");
           ("blockExplorerUrl", JStr "https://testnet.bscscan.com");
           ("logo", JStr "https://cryptologos.cc/logos/binance-coin-bnb-logo.png");
           ("chainId", JStr "0x61");
           ("displayName", JStr "Binance SmartChain Testnet");
           ("ticker", JStr "BNB");
           ("tickerName", JStr "BNB")];
        list_to_map
          [("chainNamespace", JStr EIP155);
           ("rpcTarget", JStr "https://rpc-mumbai.maticvigil.com");
           ("blockExplorerUrl", JStr "https://mumbai-explorer.matic.today");
           ("logo", JStr "https://cryptologos.cc/logos/polygon-matic-logo.png");
           ("chainId", JStr "0x13881");
           ("displayName", JStr "Polygon Mumbai Testnet");
           ("ticker", JStr "matic");
           ("tickerName", JStr "matic")] ]]> ∅)))).

End Demo.

(** Sample values of the external constants of the demo. *)
Definition sample_LOGIN_PROVIDER : list string :=
  ["google"; "email_passwordless"; "jwt"; "sms_passwordless"; "webauthn"].

(** ** Running methods *)

Ltac run :=
  unfold mbind, Method_bind, mret, Method_ret, read, assign, throw_if, throw, when,
    completion, after in *; simpl in *.

Lemma spread_lookup_over (base over : CustomChainConfig) (k : string) (v : JSVal) :
  over !! k = Some v → spread base over !! k = Some v.
Proof. intros H. unfold spread. by apply lookup_union_Some_l. Qed.

Lemma spread_lookup_base (base over : CustomChainConfig) (k : string) :
  over !! k = None → spread base over !! k = base !! k.
Proof. intros H. unfold spread. by apply lookup_union_r. Qed.

Lemma spread_twice (base over : CustomChainConfig) :
  spread (spread base over) over = spread base over.
Proof. unfold spread. by rewrite (assoc_L (∪)), (idemp_L (∪)). Qed.

Lemma spread_empty (over : CustomChainConfig) : spread ∅ over = over.
Proof. unfold spread. apply (right_id_L ∅ (∪)). Qed.

Lemma prop_spread_over (base over : CustomChainConfig) (k : string) :
  is_Some (over !! k) → prop (spread base over) k = prop over k.
Proof. intros [v Hv]. unfold prop. by rewrite (spread_lookup_over _ _ _ _ Hv), Hv. Qed.

(** The getters and the internal lookup never throw and change nothing. *)
Lemma connnected_spec (this : BaseAdapter) :
  connnected this = (Normal (bool_decide (status this = CONNECTED)), this).
Proof. reflexivity. Qed.

Lemma this_getChainConfig_spec (chainId : string) (this : BaseAdapter) :
  this_getChainConfig chainId this =
    (Normal (if truthy_known (getProperty (knownChainConfigs this) chainId)
             then getProperty (knownChainConfigs this) chainId
             else KPrim JNull), this).
Proof. reflexivity. Qed.

Lemma chainConfigProxy_spec (this : BaseAdapter) :
  chainConfigProxy this = (Normal (chainConfig this), this).
Proof.
  unfold chainConfigProxy. run. destruct (chainConfig this); [|done].
  by rewrite spread_empty.
Qed.

(** [addChainConfig] as a pure update of the known-chains object. *)
Lemma addChainConfig_run (c : CustomChainConfig) (this : BaseAdapter) :
  addChainConfig c this =
    (Normal tt,
     set_knownChainConfigs
       (setProperty (knownChainConfigs this) (chainKey c)
          (entry_for (knownChainConfigs this) c)) this).
Proof. reflexivity. Qed.

(** [setAdapterSettings] outside [READY]: the scalar updates, then the
    chain part. *)
Lemma setAdapterSettings_run getChainConfig (o : BaseAdapterSettings) (this : BaseAdapter) :
  status this ≠ READY →
  setAdapterSettings getChainConfig o this =
    let a := scalar_settings o this in
    match o_chainConfig o with
    | None => (Normal tt, a)
    | Some c =>
        if truthy (prop c "chainNamespace") then
          let final :=
            spread (or_empty (getChainConfig (prop c "chainNamespace") (prop c "chainId"))) c in
          addChainConfig final
            (set_chainConfig final (set_currentChainNamespace (prop c "chainNamespace") a))
        else
          (Throw (WalletInitializationError.notReady
                    "ChainNamespace is required while setting chainConfig"), a)
    end.
Proof.
  intros Hst. unfold setAdapterSettings, scalar_settings. run.
  rewrite bool_decide_eq_false_2 by done.
  destruct o as [cid st cfg net ck]; simpl.
  destruct st as [t|]; [destruct (negb (t =? 0))|];
    (destruct cid as [c|]; [destruct (negb (String.eqb c ""))|]);
    (destruct net as [n|]; [destruct (negb (String.eqb n ""))|]);
    (destruct ck as [b|]);
    (destruct cfg as [cc|]; [destruct (truthy (prop cc "chainNamespace"))|]);
    reflexivity.
Qed.

Lemma scalar_settings_frame (o : BaseAdapterSettings) (this : BaseAdapter) :
  status (scalar_settings o this) = status this
  ∧ chainConfig (scalar_settings o this) = chainConfig this
  ∧ knownChainConfigs (scalar_settings o this) = knownChainConfigs this
  ∧ currentChainNamespace (scalar_settings o this) = currentChainNamespace this
  ∧ provider (scalar_settings o this) = provider this
  ∧ name (scalar_settings o this) = name this.
Proof.
  unfold scalar_settings.
  destruct o as [cid st cfg net ck]; simpl.
  destruct st as [t|]; [destruct (negb (t =? 0))|];
    (destruct cid as [c|]; [destruct (negb (String.eqb c ""))|]);
    (destruct net as [n|]; [destruct (negb (String.eqb n ""))|]);
    (destruct ck as [b|]); done.
Qed.

(** ** The guards *)

(** C1: the connect-guard, by cases on the status. While [CONNECTING], it
    passes for the WalletConnect-v2 adapter and fails with
    NotReady("Already connecting") for every other adapter; while
    [CONNECTED] it fails with ConnectionError("Already connected"); in any
    other status but [READY] it fails with ConnectionError (adapter not
    ready yet); in [READY] it passes. The adapter is left as it was. *)
Theorem checkConnectionRequirements_cases (WALLET_CONNECT_V2 : string) (this : BaseAdapter) :
  (status this = CONNECTING → name this = WALLET_CONNECT_V2 →
     checkConnectionRequirements WALLET_CONNECT_V2 this = (Normal tt, this))
  ∧ (status this = CONNECTING → name this ≠ WALLET_CONNECT_V2 →
     checkConnectionRequirements WALLET_CONNECT_V2 this =
       (Throw (WalletInitializationError.notReady "Already connecting"), this))
  ∧ (status this = CONNECTED →
     checkConnectionRequirements WALLET_CONNECT_V2 this =
       (Throw (WalletLoginError.connectionError "Already connected"), this))
  ∧ (status this ≠ CONNECTING → status this ≠ CONNECTED → status this ≠ READY →
     checkConnectionRequirements WALLET_CONNECT_V2 this =
       (Throw (WalletLoginError.connectionError
                 "Wallet adapter is not ready yet, Please wait for init function to resolve before calling connect/connectTo function"),
        this))
  ∧ (status this = READY →
     checkConnectionRequirements WALLET_CONNECT_V2 this = (Normal tt, this)).
Proof.
  unfold checkConnectionRequirements. run.
  repeat split.
  - intros -> ->. by rewrite bool_decide_eq_true_2.
  - intros -> Hn. by rewrite (bool_decide_eq_false_2 _ Hn).
  - intros ->. by rewrite andb_false_r.
  - intros H1 H2 H3. rewrite andb_comm.
    rewrite (bool_decide_eq_false_2 _ H1), (bool_decide_eq_false_2 _ H2),
      (bool_decide_eq_false_2 _ H3). done.
  - intros ->. by rewrite andb_false_r.
Qed.

Lemma checkConnectionRequirements_cases_witness :
  checkConnectionRequirements Sample.WALLET_CONNECT_V2
    (Sample.with_status CONNECTING (Sample.with_name "wallet-connect-v2" Sample.fresh))
  = (Normal tt, Sample.with_status CONNECTING (Sample.with_name "wallet-connect-v2" Sample.fresh))
  ∧ completion (checkConnectionRequirements Sample.WALLET_CONNECT_V2
                  (Sample.with_status CONNECTING Sample.fresh))
    = Throw (mkError NotReady "Already connecting")
  ∧ completion (checkConnectionRequirements Sample.WALLET_CONNECT_V2
                  (Sample.with_status CONNECTED Sample.fresh))
    = Throw (mkError ConnectionError "Already connected")
  ∧ kind <$> (match completion (checkConnectionRequirements Sample.WALLET_CONNECT_V2
                                  (Sample.with_status ERRORED Sample.fresh)) with
              | Throw e => Some e | Normal _ => None end)
    = Some ConnectionError
  ∧ completion (checkConnectionRequirements Sample.WALLET_CONNECT_V2
                  (Sample.with_status READY Sample.fresh))
    = Normal tt.
Proof.
  split.
  { destruct (checkConnectionRequirements_cases Sample.WALLET_CONNECT_V2
                (Sample.with_status CONNECTING
                   (Sample.with_name "wallet-connect-v2" Sample.fresh))) as (H & _).
    apply H; reflexivity. }
  split.
  { destruct (checkConnectionRequirements_cases Sample.WALLET_CONNECT_V2
                (Sample.with_status CONNECTING Sample.fresh)) as (_ & H & _).
    rewrite H; [reflexivity | reflexivity | discriminate]. }
  split.
  { destruct (checkConnectionRequirements_cases Sample.WALLET_CONNECT_V2
                (Sample.with_status CONNECTED Sample.fresh)) as (_ & _ & H & _).
    rewrite H; reflexivity. }
  split.
  { destruct (checkConnectionRequirements_cases Sample.WALLET_CONNECT_V2
                (Sample.with_status ERRORED Sample.fresh)) as (_ & _ & _ & H & _).
    rewrite H; [reflexivity | discriminate ..]. }
  { destruct (checkConnectionRequirements_cases Sample.WALLET_CONNECT_V2
                (Sample.with_status READY Sample.fresh)) as (_ & _ & _ & _ & H).
    rewrite H; reflexivity. }
Defined.

(** C2: the init-guard checks, in this order: no client id, InvalidParams;
    no chain config, InvalidParams; no RPC target and namespace not OTHER,
    InvalidParams; no chain id and namespace not OTHER, InvalidParams; then
    status NOT_READY passes, CONNECTED fails with NotReady("Already
    connected"), READY fails with NotReady("Adapter is already
    initialized"). The adapter is left as it was. *)
Theorem checkInitializationRequirements_cases (OTHER : string) (this : BaseAdapter) :
  (truthy (of_opt JStr (clientId this)) = false →
     checkInitializationRequirements OTHER this =
       (Throw (WalletInitializationError.invalidParams
                 "Please initialize Web3Auth with a valid clientId in constructor"), this))
  ∧ (truthy (of_opt JStr (clientId this)) = true → chainConfig this = None →
     checkInitializationRequirements OTHER this =
       (Throw (WalletInitializationError.invalidParams
                 "rpcTarget is required in chainConfig"), this))
  ∧ (∀ c, truthy (of_opt JStr (clientId this)) = true → chainConfig this = Some c →
     truthy (prop c "rpcTarget") = false → prop c "chainNamespace" ≠ JStr OTHER →
     checkInitializationRequirements OTHER this =
       (Throw (WalletInitializationError.invalidParams
                 "rpcTarget is required in chainConfig"), this))
  ∧ (∀ c, truthy (of_opt JStr (clientId this)) = true → chainConfig this = Some c →
     truthy (prop c "rpcTarget") = true →
     truthy (prop c "chainId") = false → prop c "chainNamespace" ≠ JStr OTHER →
     checkInitializationRequirements OTHER this =
       (Throw (WalletInitializationError.invalidParams
                 "chainID is required in chainConfig"), this))
  ∧ (init_params_ok OTHER this → status this = NOT_READY →
     checkInitializationRequirements OTHER this = (Normal tt, this))
  ∧ (init_params_ok OTHER this → status this = CONNECTED →
     checkInitializationRequirements OTHER this =
       (Throw (WalletInitializationError.notReady "Already connected"), this))
  ∧ (init_params_ok OTHER this → status this = READY →
     checkInitializationRequirements OTHER this =
       (Throw (WalletInitializationError.notReady "Adapter is already initialized"), this)).
Proof.
  assert (Hok : init_params_ok OTHER this →
            checkInitializationRequirements OTHER this =
              if bool_decide (status this = NOT_READY) then (Normal tt, this)
              else if bool_decide (status this = CONNECTED) then
                (Throw (WalletInitializationError.notReady "Already connected"), this)
              else if bool_decide (status this = READY) then
                (Throw (WalletInitializationError.notReady "Adapter is already initialized"),
                 this)
              else (Normal tt, this)).
  { intros (Hc & c & Hcfg & Hp). unfold checkInitializationRequirements. run.
    rewrite Hc; simpl. rewrite Hcfg; simpl.
    assert (negb (truthy (prop c "rpcTarget"))
              && negb (strict_eq (prop c "chainNamespace") (JStr OTHER)) = false
            ∧ negb (truthy (prop c "chainId"))
              && negb (strict_eq (prop c "chainNamespace") (JStr OTHER)) = false)
      as [-> ->].
    { destruct Hp as [-> | [-> ->]]; [|done].
      unfold strict_eq. rewrite bool_decide_eq_true_2 by done.
      by rewrite !andb_false_r. }
    run. by destruct (status this). }
  unfold checkInitializationRequirements. repeat split.
  - intros Hc. run. by rewrite Hc.
  - intros Hc Hcfg. run. rewrite Hc; simpl. by rewrite Hcfg.
  - intros c Hc Hcfg Hrpc Hns. run. rewrite Hc; simpl. rewrite Hcfg; simpl. rewrite Hrpc.
    unfold strict_eq. by rewrite (bool_decide_eq_false_2 _ Hns).
  - intros c Hc Hcfg Hrpc Hid Hns. run. rewrite Hc; simpl. rewrite Hcfg; simpl.
    rewrite Hrpc, Hid.
    unfold strict_eq. by rewrite (bool_decide_eq_false_2 _ Hns).
  - intros Hp Hst. fold (checkInitializationRequirements OTHER). rewrite (Hok Hp), Hst. done.
  - intros Hp Hst. fold (checkInitializationRequirements OTHER). rewrite (Hok Hp), Hst. done.
  - intros Hp Hst. fold (checkInitializationRequirements OTHER). rewrite (Hok Hp), Hst. done.
Qed.

Lemma checkInitializationRequirements_cases_witness :
  completion (checkInitializationRequirements Sample.OTHER Sample.fresh)
  = Throw (mkError InvalidParams
             "Please initialize Web3Auth with a valid clientId in constructor")
  ∧ checkInitializationRequirements Sample.OTHER Sample.configured
    = (Normal tt, Sample.configured)
  ∧ completion (checkInitializationRequirements Sample.OTHER
                  (Sample.with_status READY Sample.configured))
    = Throw (mkError NotReady "Adapter is already initialized").
Proof.
  assert (Hok : ∀ s, init_params_ok Sample.OTHER (Sample.with_status s Sample.configured)).
  { intros s. split; [reflexivity|].
    eexists. split; [reflexivity|]. right. split; vm_compute; reflexivity. }
  split.
  { destruct (checkInitializationRequirements_cases Sample.OTHER Sample.fresh) as (H & _).
    rewrite H; reflexivity. }
  split.
  { destruct (checkInitializationRequirements_cases Sample.OTHER
                (Sample.with_status NOT_READY Sample.configured))
      as (_ & _ & _ & _ & H & _).
    apply (H (Hok NOT_READY)). reflexivity. }
  { destruct (checkInitializationRequirements_cases Sample.OTHER
                (Sample.with_status READY Sample.configured))
      as (_ & _ & _ & _ & _ & _ & H).
    rewrite (H (Hok READY)); reflexivity. }
Defined.

(** In the three remaining statuses ([CONNECTING], [DISCONNECTED],
    [ERRORED]) the init-guard has no check left and passes. *)
Lemma checkInitializationRequirements_other_status (OTHER : string) (this : BaseAdapter) :
  init_params_ok OTHER this →
  status this ≠ NOT_READY → status this ≠ CONNECTED → status this ≠ READY →
  checkInitializationRequirements OTHER this = (Normal tt, this).
Proof.
  intros (Hc & c & Hcfg & Hp) H1 H2 H3. unfold checkInitializationRequirements. run.
  rewrite Hc; simpl. rewrite Hcfg; simpl.
  assert (negb (truthy (prop c "rpcTarget"))
            && negb (strict_eq (prop c "chainNamespace") (JStr OTHER)) = false
          ∧ negb (truthy (prop c "chainId"))
            && negb (strict_eq (prop c "chainNamespace") (JStr OTHER)) = false)
    as [-> ->].
  { destruct Hp as [-> | [-> ->]]; [|done].
    unfold strict_eq. rewrite bool_decide_eq_true_2 by done.
    by rewrite !andb_false_r. }
  run. by destruct (status this).
Qed.

(** C9: the disconnect-guard fails with DisconnectionError in every
    status other than [CONNECTED] and passes in [CONNECTED]; when it fails
    the adapter, its status included, is exactly as before. *)
Theorem checkDisconnectionRequirements_cases (this : BaseAdapter) :
  (status this ≠ CONNECTED →
     completion (checkDisconnectionRequirements this)
       = Throw (WalletLoginError.disconnectionError "Not connected with wallet")
     ∧ after (checkDisconnectionRequirements this) = this
     ∧ status (after (checkDisconnectionRequirements this)) = status this)
  ∧ (status this = CONNECTED →
     checkDisconnectionRequirements this = (Normal tt, this)).
Proof.
  unfold checkDisconnectionRequirements. run. split.
  - intros H. by rewrite (bool_decide_eq_false_2 _ H).
  - by intros ->.
Qed.

Lemma checkDisconnectionRequirements_cases_witness :
  (completion (checkDisconnectionRequirements Sample.configured)
     = Throw (mkError DisconnectionError "Not connected with wallet")
   ∧ after (checkDisconnectionRequirements Sample.configured) = Sample.configured
   ∧ status (after (checkDisconnectionRequirements Sample.configured)) = NOT_READY)
  ∧ checkDisconnectionRequirements (Sample.with_status CONNECTED Sample.configured)
    = (Normal tt, Sample.with_status CONNECTED Sample.configured).
Proof.
  split.
  - destruct (checkDisconnectionRequirements_cases Sample.configured) as (H & _).
    apply H. discriminate.
  - destruct (checkDisconnectionRequirements_cases
                (Sample.with_status CONNECTED Sample.configured)) as (_ & H).
    apply H. reflexivity.
Defined.

(** C8: the add-chain-guard fails with NotConnected when [isInit] is false
    and there is no provider; otherwise it fails with
    ChainNamespaceNotAllowed exactly when the namespace of the config
    differs from [currentChainNamespace], and passes when they are the
    same. The adapter is left as it was. *)
Theorem checkAddChainRequirements_cases
    (this : BaseAdapter) (chainConfig : CustomChainConfig) (init : bool) :
  (init = false → provider this = None →
     checkAddChainRequirements chainConfig init this =
       (Throw (WalletLoginError.notConnectedError "Not connected with wallet."), this))
  ∧ (init = true ∨ is_Some (provider this) →
     (currentChainNamespace this ≠ prop chainConfig "chainNamespace" ↔
        checkAddChainRequirements chainConfig init this =
          (Throw (WalletOperationsError.chainNamespaceNotAllowed
                    "This adapter doesn't support this chainNamespace"), this))
     ∧ (currentChainNamespace this = prop chainConfig "chainNamespace" ↔
        checkAddChainRequirements chainConfig init this = (Normal tt, this))).
Proof.
  unfold checkAddChainRequirements. run. split.
  - intros -> ->. done.
  - intros Hlive.
    assert (negb init && negb (bool_decide (is_Some (provider this))) = false) as ->.
    { destruct Hlive as [-> | Hp]; [done|].
      rewrite (bool_decide_eq_true_2 _ Hp). by rewrite andb_false_r. }
    run. unfold strict_eq. case_bool_decide; simpl; split; split; try done.
Qed.

Lemma checkAddChainRequirements_cases_witness :
  completion (checkAddChainRequirements Sample.callerConfig false Sample.configured)
  = Throw (mkError NotConnectedError "Not connected with wallet.")
  ∧ completion (checkAddChainRequirements Sample.callerConfig true Sample.configured)
    = Normal tt
  ∧ completion (checkAddChainRequirements {[ "chainNamespace" := JStr "solana" ]} true
                  Sample.configured)
    = Throw (mkError ChainNamespaceNotAllowed
               "This adapter doesn't support this chainNamespace").
Proof.
  split.
  { destruct (checkAddChainRequirements_cases Sample.configured Sample.callerConfig false)
      as (H & _).
    rewrite H; reflexivity. }
  split.
  { destruct (checkAddChainRequirements_cases Sample.configured Sample.callerConfig true)
      as (_ & H).
    destruct (H (or_introl eq_refl)) as (_ & H2).
    rewrite (proj1 H2); [reflexivity|]. vm_compute. reflexivity. }
  { destruct (checkAddChainRequirements_cases Sample.configured
                {[ "chainNamespace" := JStr "solana" ]} true) as (_ & H).
    destruct (H (or_introl eq_refl)) as (H1 & _).
    rewrite (proj1 H1); [reflexivity|]. vm_compute. discriminate. }
Defined.

(** ** The known-chains object: reads and writes *)

(** An assignment changes the prototype only at the key [__proto__]. *)
Lemma setProperty_define (known : KnownChainConfigs) (k : string) (v : CustomChainConfig) :
  k ≠ "__proto__" →
  setProperty known k v = mkKnown (<[k := v]> (kc_own known)) (kc_proto known).
Proof.
  intros Hk. unfold setProperty. repeat case_bool_decide; done.
Qed.

Lemma setProperty_own_ne (known : KnownChainConfigs) (k k' : string) (v : CustomChainConfig) :
  k' ≠ k → kc_own (setProperty known k v) !! k' = kc_own known !! k'.
Proof.
  intros Hk. unfold setProperty.
  repeat case_bool_decide; simpl; by rewrite ?lookup_insert_ne.
Qed.

Lemma stored_setProperty (known : KnownChainConfigs) (k : string) (v : CustomChainConfig) :
  stored (setProperty known k v) k = Some v.
Proof.
  unfold setProperty.
  case_bool_decide as Ho; [unfold stored; simpl; by rewrite lookup_insert_eq|].
  case_bool_decide as Hp; [unfold stored; simpl; by rewrite lookup_insert_eq|].
  case_bool_decide as Hk; [|unfold stored; simpl; by rewrite lookup_insert_eq].
  unfold stored. simpl.
  destruct (kc_own known !! k) eqn:E; [exfalso; apply Ho; eauto|].
  by rewrite bool_decide_eq_true_2.
Qed.

Lemma stored_setProperty_ne (known : KnownChainConfigs) (k k' : string)
    (v : CustomChainConfig) :
  k' ≠ k → stored (setProperty known k v) k' = stored known k'.
Proof.
  intros Hk. unfold stored. rewrite setProperty_own_ne by done.
  destruct (kc_own known !! k'); [done|].
  case_bool_decide as Hp; [|done]. subst k'.
  by rewrite setProperty_define.
Qed.

(** A read of a key other than [__proto__] gives a config object only for
    an own property. *)
Lemma getProperty_KConfig (known : KnownChainConfigs) (k : string) (e : CustomChainConfig) :
  k ≠ "__proto__" →
  getProperty known k = KConfig e ↔ kc_own known !! k = Some e.
Proof.
  intros Hk. unfold getProperty, Object_prototype_get.
  rewrite (bool_decide_eq_false_2 _ Hk).
  destruct (kc_own known !! k); [split; congruence|].
  destruct (kc_proto known) as [p|]; [destruct (p !! k)|];
    repeat case_bool_decide; split; congruence.
Qed.


(** A read after an assignment to another key, [__proto__] aside. *)
Lemma getProperty_setProperty_ne (known : KnownChainConfigs) (k k' : string)
    (v : CustomChainConfig) :
  k ≠ "__proto__" → k' ≠ k →
  getProperty (setProperty known k v) k' = getProperty known k'.
Proof.
  intros Hk Hne. rewrite setProperty_define by done.
  unfold getProperty, Object_prototype_get. simpl. by rewrite lookup_insert_ne.
Qed.

(** A read after an assignment to the same key gives the assigned object,
    unless the assignment replaced the prototype by an object that has an
    own property [__proto__]. *)
Lemma getProperty_setProperty (known : KnownChainConfigs) (k : string)
    (v : CustomChainConfig) :
  (k = "__proto__" → kc_own known !! k = None → kc_proto known ≫= (.!! k) = None →
   v !! "__proto__" = None) →
  getProperty (setProperty known k v) k = KConfig v.
Proof.
  intros Hv. unfold setProperty.
  case_bool_decide as Ho; [unfold getProperty; simpl; by rewrite lookup_insert_eq|].
  case_bool_decide as Hp; [unfold getProperty; simpl; by rewrite lookup_insert_eq|].
  case_bool_decide as Hk; [|unfold getProperty; simpl; by rewrite lookup_insert_eq].
  assert (kc_own known !! k = None) as Hown.
  { destruct (kc_own known !! k) eqn:E; [|done]. exfalso. apply Ho. eauto. }
  assert (kc_proto known ≫= (.!! k) = None) as Hproto.
  { destruct (kc_proto known ≫= (.!! k)) eqn:E; [|done]. exfalso. apply Hp. eauto. }
  specialize (Hv Hk Hown Hproto). subst k.
  unfold getProperty, Object_prototype_get. simpl. by rewrite Hown, Hv.
Qed.

(** The two outcomes of an assignment. *)
Lemma setProperty_cases (known : KnownChainConfigs) (k : string) (v : CustomChainConfig) :
  setProperty known k v = mkKnown (<[k := v]> (kc_own known)) (kc_proto known)
  ∨ (k = "__proto__" ∧ kc_own known !! k = None ∧ kc_proto known ≫= (.!! k) = None
     ∧ setProperty known k v = mkKnown (kc_own known) (Some v)).
Proof.
  unfold setProperty.
  case_bool_decide as Ho; [by left|].
  case_bool_decide as Hp; [by left|].
  case_bool_decide as Hk; [|by left].
  right. split; [done|]. split; [|split; [|done]].
  - destruct (kc_own known !! k) eqn:E; [exfalso; apply Ho; eauto | done].
  - destruct (kc_proto known ≫= (.!! k)) eqn:E; [exfalso; apply Hp; eauto | done].
Qed.

(** Assigning again what a read already gives changes nothing. *)
Lemma setProperty_again (known : KnownChainConfigs) (k : string) (v : CustomChainConfig) :
  getProperty (setProperty known k v) k = KConfig v →
  setProperty (setProperty known k v) k v = setProperty known k v.
Proof.
  destruct (setProperty_cases known k v) as [-> | (-> & Hown & Hproto & ->)].
  - intros _. unfold setProperty. simpl.
    rewrite bool_decide_eq_true_2 by (rewrite lookup_insert_eq; eauto).
    by rewrite insert_insert_eq.
  - unfold getProperty, Object_prototype_get. simpl. rewrite Hown.
    destruct (v !! "__proto__") eqn:Hv; [done|]. intros _.
    unfold setProperty. simpl. rewrite Hown, Hv.
    rewrite !bool_decide_eq_false_2 by (by intros [? ?]). done.
Qed.

(** In the case where an assignment replaces the prototype, the read
    before it gives the old prototype, which holds no [__proto__]. *)
Lemma own_enumerable_before_replace (known : KnownChainConfigs) :
  kc_own known !! "__proto__" = None → kc_proto known ≫= (.!! "__proto__") = None →
  own_enumerable (or_empty_known (getProperty known "__proto__")) !! "__proto__" = None.
Proof.
  intros Hown Hproto. unfold getProperty, Object_prototype_get. rewrite Hown.
  destruct (kc_proto known) as [p|]; simpl in *; [by rewrite Hproto|done].
Qed.

Lemma entry_for_ordinary (known : KnownChainConfigs) (c : CustomChainConfig) :
  ordinary c →
  chainKey c = "__proto__" → kc_own known !! chainKey c = None →
  kc_proto known ≫= (.!! chainKey c) = None →
  entry_for known c !! "__proto__" = None.
Proof.
  intros Hc Hk Hown Hproto. unfold entry_for. rewrite Hk in *.
  rewrite spread_lookup_base by by apply Hc.
  by apply own_enumerable_before_replace.
Qed.

(** What a read of its chain id gives after [addChainConfig]. *)
Lemma addChainConfig_read (c : CustomChainConfig) (this : BaseAdapter) :
  ordinary c →
  getProperty (knownChainConfigs (after (addChainConfig c this))) (chainKey c)
  = KConfig (entry_for (knownChainConfigs this) c).
Proof.
  intros Hc. rewrite addChainConfig_run. unfold after; simpl.
  apply getProperty_setProperty. by apply entry_for_ordinary.
Qed.

Lemma addChainConfig_read_ne (c : CustomChainConfig) (this : BaseAdapter) (k : string) :
  chainKey c ≠ "__proto__" → k ≠ chainKey c →
  getProperty (knownChainConfigs (after (addChainConfig c this))) k
  = getProperty (knownChainConfigs this) k.
Proof.
  intros Hc Hk. rewrite addChainConfig_run. unfold after; simpl.
  by apply getProperty_setProperty_ne.
Qed.

Lemma addChainConfig_registers (c : CustomChainConfig) (this : BaseAdapter) :
  ordinary c → registered (chainKey c) (after (addChainConfig c this)).
Proof. intros Hc. unfold registered. rewrite addChainConfig_read by done. eauto. Qed.

Lemma addChainConfig_keeps (c : CustomChainConfig) (this : BaseAdapter) (k : string) :
  ordinary c → registered k this → registered k (after (addChainConfig c this)).
Proof.
  intros Hc [e He].
  destruct (decide (k = chainKey c)) as [->|Hne]; [by apply addChainConfig_registers|].
  destruct (decide (k = "__proto__")) as [->|Hk].
  - exists e. rewrite addChainConfig_read_ne; done.
  - exists e. apply getProperty_KConfig in He; [|done].
    apply getProperty_KConfig; [done|].
    rewrite addChainConfig_run. unfold after; simpl.
    by rewrite setProperty_own_ne.
Qed.

Lemma addChainConfig_frame (c : CustomChainConfig) (this : BaseAdapter) :
  status (after (addChainConfig c this)) = status this
  ∧ provider (after (addChainConfig c this)) = provider this
  ∧ chainConfig (after (addChainConfig c this)) = chainConfig this
  ∧ currentChainNamespace (after (addChainConfig c this)) = currentChainNamespace this.
Proof. done. Qed.

Lemma setAdapterSettings_ready getChainConfig (o : BaseAdapterSettings) (this : BaseAdapter) :
  status this = READY → setAdapterSettings getChainConfig o this = (Normal tt, this).
Proof. intros H. unfold setAdapterSettings. run. by rewrite H. Qed.




Lemma checkSwitchChainRequirements_live (this : BaseAdapter) (chainId : string)
    (init : bool) :
  init = true ∨ is_Some (provider this) →
  checkSwitchChainRequirements chainId init this =
    if truthy_known (getProperty (knownChainConfigs this) chainId)
    then (Normal tt, this)
    else (Throw (WalletLoginError.chainConfigNotAdded "Invalid chainId"), this).
Proof.
  intros Hlive. unfold checkSwitchChainRequirements. run.
  assert (negb init && negb (bool_decide (is_Some (provider this))) = false) as ->.
  { destruct Hlive as [-> | Hp]; [done|].
    rewrite (bool_decide_eq_true_2 _ Hp). by rewrite andb_false_r. }
  run. by destruct (truthy_known _).
Qed.

Lemma registered_truthy (this : BaseAdapter) (k : string) :
  registered k this → truthy_known (getProperty (knownChainConfigs this) k) = true.
Proof. by intros [e ->]. Qed.







(** ** Settings *)



(** C5: in [READY], [setAdapterSettings] does nothing and does not fail:
    session time, client id, network, core-kit flag, current namespace,
    active chain config and known-chains map, as the whole adapter, are
    what they were. *)
Theorem setAdapterSettings_frozen_when_ready
    (getChainConfig : JSVal → JSVal → option CustomChainConfig)
    (this : BaseAdapter) (o : BaseAdapterSettings) :
  status this = READY →
  let this' := after (setAdapterSettings getChainConfig o this) in
  completion (setAdapterSettings getChainConfig o this) = Normal tt
  ∧ this' = this
  ∧ sessionTime this' = sessionTime this
  ∧ clientId this' = clientId this
  ∧ web3AuthNetwork this' = web3AuthNetwork this
  ∧ useCoreKitKey this' = useCoreKitKey this
  ∧ currentChainNamespace this' = currentChainNamespace this
  ∧ chainConfig this' = chainConfig this
  ∧ knownChainConfigs this' = knownChainConfigs this.
Proof.
  intros Hst this'. subst this'. by rewrite (setAdapterSettings_ready _ _ _ Hst).
Qed.

Lemma setAdapterSettings_frozen_when_ready_witness :
  setAdapterSettings Sample.registry Sample.settings (Sample.with_status READY Sample.fresh)
  = (Normal tt, Sample.with_status READY Sample.fresh).
Proof.
  destruct (setAdapterSettings_frozen_when_ready Sample.registry
              (Sample.with_status READY Sample.fresh) Sample.settings eq_refl)
    as (Hc & Ha & _).
  destruct (setAdapterSettings _ _ _) as [r a]. simpl in Hc, Ha. by rewrite Hc, Ha.
Defined.

(** C6, as the code has it: outside [READY], settings whose chain config
    has no namespace make [setAdapterSettings] fail with a NotReady error
    ("ChainNamespace is required while setting chainConfig"). *)
Theorem setAdapterSettings_missing_namespace
    (getChainConfig : JSVal → JSVal → option CustomChainConfig)
    (this : BaseAdapter) (o : BaseAdapterSettings) (c : CustomChainConfig) :
  status this ≠ READY → o_chainConfig o = Some c →
  truthy (prop c "chainNamespace") = false →
  completion (setAdapterSettings getChainConfig o this) =
    Throw (WalletInitializationError.notReady
             "ChainNamespace is required while setting chainConfig")
  ∧ kind (WalletInitializationError.notReady
            "ChainNamespace is required while setting chainConfig") = NotReady.
Proof.
  intros Hst Hc Hns. rewrite setAdapterSettings_run by done. cbv zeta.
  by rewrite Hc, Hns.
Qed.

Lemma setAdapterSettings_missing_namespace_witness :
  completion (setAdapterSettings Sample.registry Sample.settingsNoNamespace Sample.fresh)
  = Throw (mkError NotReady "ChainNamespace is required while setting chainConfig").
Proof.
  apply (setAdapterSettings_missing_namespace Sample.registry Sample.fresh
           Sample.settingsNoNamespace {[ "chainId" := JStr "0x1" ]});
    [discriminate | reflexivity | reflexivity].
Defined.

(** C6 as stated fails: a fresh adapter given a chain config without a
    namespace does not fail with an InvalidParams error. *)
Lemma setAdapterSettings_missing_namespace_not_InvalidParams :
  status Sample.fresh ≠ READY
  ∧ o_chainConfig Sample.settingsNoNamespace = Some {[ "chainId" := JStr "0x1" ]}
  ∧ ({[ "chainId" := JStr "0x1" ]} : CustomChainConfig) !! "chainNamespace" = None
  ∧ ¬ ∃ e : Web3AuthError,
        completion (setAdapterSettings Sample.registry Sample.settingsNoNamespace Sample.fresh)
          = Throw e
        ∧ kind e = InvalidParams.
Proof.
  split; [discriminate|]. split; [reflexivity|]. split; [reflexivity|].
  intros (e & He & Hk). vm_compute in He. injection He as <-. discriminate.
Qed.

(** C10: outside [READY], a falsy [sessionTime], [clientId] or
    [web3AuthNetwork] (absent, [0], or the empty string) leaves the field
    as it was and causes no failure, while [useCoreKitKey] is written
    whenever it is given, [false] included. *)
Theorem setAdapterSettings_falsy_scalars
    (getChainConfig : JSVal → JSVal → option CustomChainConfig)
    (this : BaseAdapter) (o : BaseAdapterSettings) :
  status this ≠ READY →
  let this' := after (setAdapterSettings getChainConfig o this) in
  (truthy (of_opt JNum (o_sessionTime o)) = false → sessionTime this' = sessionTime this)
  ∧ (truthy (of_opt JStr (o_clientId o)) = false → clientId this' = clientId this)
  ∧ (truthy (of_opt JStr (o_web3AuthNetwork o)) = false →
     web3AuthNetwork this' = web3AuthNetwork this)
  ∧ (∀ b : bool, o_useCoreKitKey o = Some b → useCoreKitKey this' = Some b)
  ∧ (o_useCoreKitKey o = None → useCoreKitKey this' = useCoreKitKey this)
  ∧ (o_chainConfig o = None →
     completion (setAdapterSettings getChainConfig o this) = Normal tt).
Proof.
  intros Hst this'. subst this'. rewrite setAdapterSettings_run by done. cbv zeta.
  assert (Hscal :
    (truthy (of_opt JNum (o_sessionTime o)) = false →
       sessionTime (scalar_settings o this) = sessionTime this)
    ∧ (truthy (of_opt JStr (o_clientId o)) = false →
       clientId (scalar_settings o this) = clientId this)
    ∧ (truthy (of_opt JStr (o_web3AuthNetwork o)) = false →
       web3AuthNetwork (scalar_settings o this) = web3AuthNetwork this)
    ∧ (∀ b : bool, o_useCoreKitKey o = Some b →
       useCoreKitKey (scalar_settings o this) = Some b)
    ∧ (o_useCoreKitKey o = None →
       useCoreKitKey (scalar_settings o this) = useCoreKitKey this)).
  { unfold scalar_settings, of_opt.
    destruct (o_sessionTime o) as [t|]; [destruct (truthy (JNum t))|];
      (destruct (o_clientId o) as [x|]; [destruct (truthy (JStr x))|]);
      (destruct (o_web3AuthNetwork o) as [n|]; [destruct (truthy (JStr n))|]);
      (destruct (o_useCoreKitKey o) as [b|]);
      repeat split; intros; by simplify_eq. }
  destruct Hscal as (H1 & H2 & H3 & H4 & H5).
  destruct (o_chainConfig o) as [c|]; [|by unfold after, completion].
  destruct (truthy (prop c "chainNamespace")); unfold after, completion; simpl;
    repeat split; try done.
Qed.

Lemma setAdapterSettings_falsy_scalars_witness :
  sessionTime (after (setAdapterSettings Sample.registry Sample.settingsFalsy
                        Sample.configured)) = 86400
  ∧ clientId (after (setAdapterSettings Sample.registry Sample.settingsFalsy
                       Sample.configured)) = Some "abc"
  ∧ web3AuthNetwork (after (setAdapterSettings Sample.registry Sample.settingsFalsy
                              Sample.configured)) = "mainnet"
  ∧ useCoreKitKey (after (setAdapterSettings Sample.registry Sample.settingsFalsy
                            Sample.configured)) = Some false
  ∧ completion (setAdapterSettings Sample.registry Sample.settingsFalsy Sample.configured)
    = Normal tt.
Proof.
  destruct (setAdapterSettings_falsy_scalars Sample.registry Sample.configured
              Sample.settingsFalsy ltac:(discriminate))
    as (H1 & H2 & H3 & H4 & _ & H6).
  rewrite (H1 eq_refl), (H2 eq_refl), (H3 eq_refl), (H4 false eq_refl), (H6 eq_refl).
  repeat split; reflexivity.
Defined.


(** ** More on the settings update *)

Ltac scalar_cases o :=
  unfold scalar_settings, of_opt;
  let t := fresh "t" in
  let x := fresh "x" in
  let n := fresh "n" in
  let b := fresh "b" in
  destruct (o_sessionTime o) as [t|]; [destruct (truthy (JNum t)) eqn:?|];
  (destruct (o_clientId o) as [x|]; [destruct (truthy (JStr x)) eqn:?|]);
  (destruct (o_web3AuthNetwork o) as [n|]; [destruct (truthy (JStr n)) eqn:?|]);
  (destruct (o_useCoreKitKey o) as [b|]).

Lemma scalar_settings_idem (o : BaseAdapterSettings) (a : BaseAdapter) :
  scalar_settings o (scalar_settings o a) = scalar_settings o a.
Proof. scalar_cases o; reflexivity. Qed.

Lemma scalar_settings_chain_comm (o : BaseAdapterSettings) (a : BaseAdapter)
    (v : KnownChainConfigs) (f : CustomChainConfig) (n : JSVal) :
  scalar_settings o (set_knownChainConfigs v (set_chainConfig f (set_currentChainNamespace n a)))
  = set_knownChainConfigs v (set_chainConfig f (set_currentChainNamespace n (scalar_settings o a))).
Proof. scalar_cases o; reflexivity. Qed.

Lemma scalar_settings_rest (o : BaseAdapterSettings) (a : BaseAdapter) :
  rehydrated (scalar_settings o a) = rehydrated a
  ∧ adapterNamespace (scalar_settings o a) = adapterNamespace a
  ∧ type (scalar_settings o a) = type a.
Proof. scalar_cases o; done. Qed.

Lemma scalar_settings_truthy (o : BaseAdapterSettings) (a : BaseAdapter) :
  (∀ t, o_sessionTime o = Some t → truthy (JNum t) = true →
     sessionTime (scalar_settings o a) = t)
  ∧ (∀ x, o_clientId o = Some x → truthy (JStr x) = true →
     clientId (scalar_settings o a) = Some x)
  ∧ (∀ n, o_web3AuthNetwork o = Some n → truthy (JStr n) = true →
     web3AuthNetwork (scalar_settings o a) = n).
Proof. scalar_cases o; repeat split; intros; simplify_eq; done || congruence. Qed.

(** The adapter [setAdapterSettings] leaves behind outside [READY]: the
    scalar updates, and the chain part when the call succeeds with one. *)
Lemma setAdapterSettings_after getChainConfig (o : BaseAdapterSettings) (this : BaseAdapter) :
  status this ≠ READY →
  after (setAdapterSettings getChainConfig o this) =
    match o_chainConfig o with
    | None => scalar_settings o this
    | Some c =>
        if truthy (prop c "chainNamespace") then
          let final := finalChainConfig getChainConfig c in
          set_knownChainConfigs
            (setProperty (knownChainConfigs this) (chainKey final)
               (entry_for (knownChainConfigs this) final))
            (set_chainConfig final
               (set_currentChainNamespace (prop c "chainNamespace") (scalar_settings o this)))
        else scalar_settings o this
    end.
Proof.
  intros Hst. rewrite setAdapterSettings_run by done. cbv zeta.
  destruct (o_chainConfig o) as [c|]; [|done].
  destruct (truthy (prop c "chainNamespace")); [|done].
  rewrite addChainConfig_run. unfold after; simpl.
  by rewrite (proj1 (proj2 (proj2 (scalar_settings_frame o this)))).
Qed.

Lemma setAdapterSettings_completion getChainConfig (o : BaseAdapterSettings)
    (this : BaseAdapter) :
  status this ≠ READY →
  completion (setAdapterSettings getChainConfig o this) =
    match o_chainConfig o with
    | None => Normal tt
    | Some c =>
        if truthy (prop c "chainNamespace") then Normal tt
        else Throw (WalletInitializationError.notReady
                      "ChainNamespace is required while setting chainConfig")
    end.
Proof.
  intros Hst. rewrite setAdapterSettings_run by done. cbv zeta.
  destruct (o_chainConfig o) as [c|]; [|done].
  by destruct (truthy (prop c "chainNamespace")).
Qed.

Lemma setAdapterSettings_status getChainConfig (o : BaseAdapterSettings) (this : BaseAdapter) :
  status (after (setAdapterSettings getChainConfig o this)) = status this
  ∧ name (after (setAdapterSettings getChainConfig o this)) = name this
  ∧ provider (after (setAdapterSettings getChainConfig o this)) = provider this
  ∧ rehydrated (after (setAdapterSettings getChainConfig o this)) = rehydrated this
  ∧ adapterNamespace (after (setAdapterSettings getChainConfig o this)) = adapterNamespace this
  ∧ type (after (setAdapterSettings getChainConfig o this)) = type this.
Proof.
  destruct (decide (status this = READY)) as [Hst|Hst].
  { by rewrite setAdapterSettings_ready. }
  rewrite setAdapterSettings_after by done.
  destruct (scalar_settings_frame o this) as (H1 & _ & _ & _ & H5 & H6).
  destruct (scalar_settings_rest o this) as (H7 & H8 & H9).
  destruct (o_chainConfig o) as [c|]; [destruct (truthy (prop c "chainNamespace"))|];
    simpl; by rewrite ?H1, ?H5, ?H6, ?H7, ?H8, ?H9.
Qed.

(** X1: [setAdapterSettings] is idempotent when the config it stores is
    ordinary: a second call with the same settings completes as the first
    did and leaves the adapter as the first left it, in every status and
    whether or not the call fails. *)
Theorem setAdapterSettings_idempotent
    (getChainConfig : JSVal → JSVal → option CustomChainConfig)
    (o : BaseAdapterSettings) (this : BaseAdapter) :
  (∀ c, o_chainConfig o = Some c → ordinary (finalChainConfig getChainConfig c)) →
  setAdapterSettings getChainConfig o (after (setAdapterSettings getChainConfig o this))
  = setAdapterSettings getChainConfig o this.
Proof.
  intros Hord.
  destruct (decide (status this = READY)) as [Hst|Hst].
  { by rewrite !(setAdapterSettings_ready _ _ _ Hst). }
  assert (status (after (setAdapterSettings getChainConfig o this)) ≠ READY) as Hst'.
  { by rewrite (proj1 (setAdapterSettings_status _ _ _)). }
  rewrite (surjective_pairing (setAdapterSettings getChainConfig o this)) at 2.
  rewrite (surjective_pairing (setAdapterSettings getChainConfig o (after _))).
  fold (completion (setAdapterSettings getChainConfig o this)).
  fold (after (setAdapterSettings getChainConfig o this)).
  fold (completion (setAdapterSettings getChainConfig o
                      (after (setAdapterSettings getChainConfig o this)))).
  fold (after (setAdapterSettings getChainConfig o
                 (after (setAdapterSettings getChainConfig o this)))).
  rewrite (setAdapterSettings_completion _ _ _ Hst'), (setAdapterSettings_completion _ _ _ Hst).
  f_equal.
  rewrite (setAdapterSettings_after _ _ _ Hst'), (setAdapterSettings_after _ _ _ Hst).
  destruct (o_chainConfig o) as [c|] eqn:Hc; [|apply scalar_settings_idem].
  destruct (truthy (prop c "chainNamespace")); [|apply scalar_settings_idem].
  cbv zeta. specialize (Hord c eq_refl).
  set (final := finalChainConfig getChainConfig c) in *.
  rewrite scalar_settings_chain_comm, scalar_settings_idem. simpl.
  assert (getProperty (setProperty (knownChainConfigs this) (chainKey final)
                         (entry_for (knownChainConfigs this) final)) (chainKey final)
          = KConfig (entry_for (knownChainConfigs this) final)) as Hread.
  { apply getProperty_setProperty. by apply entry_for_ordinary. }
  assert (entry_for (setProperty (knownChainConfigs this) (chainKey final)
                       (entry_for (knownChainConfigs this) final)) final
          = entry_for (knownChainConfigs this) final) as ->.
  { unfold entry_for at 1. rewrite Hread. simpl. unfold entry_for. apply spread_twice. }
  by rewrite (setProperty_again _ _ _ Hread).
Qed.

Lemma setAdapterSettings_idempotent_witness :
  setAdapterSettings Sample.registry Sample.settings
    (after (setAdapterSettings Sample.registry Sample.settings Sample.fresh))
  = setAdapterSettings Sample.registry Sample.settings Sample.fresh.
Proof.
  apply (setAdapterSettings_idempotent Sample.registry Sample.settings Sample.fresh).
  intros c [= <-] Hk. discriminate Hk.
Defined.

Lemma truthy_JNum (t : Z) : truthy (JNum t) = true ↔ t ≠ 0.
Proof. simpl. rewrite negb_true_iff. apply Z.eqb_neq. Qed.

Lemma truthy_JStr (s : string) : truthy (JStr s) = true ↔ s ≠ "".
Proof. simpl. rewrite negb_true_iff. apply String.eqb_neq. Qed.

Lemma truthy_prop_is_Some (c : CustomChainConfig) (k : string) :
  truthy (prop c k) = true → is_Some (c !! k).
Proof. unfold prop. destruct (c !! k); [eauto | discriminate]. Qed.

Lemma prop_spread_over_truthy (base over : CustomChainConfig) (k : string) :
  truthy (prop over k) = true → prop (spread base over) k = prop over k.
Proof. intros H. by apply prop_spread_over, truthy_prop_is_Some. Qed.

(** The guards as functions of what they read. *)
Lemma checkInitializationRequirements_ok (OTHER : string) (this : BaseAdapter) :
  init_params_ok OTHER this →
  checkInitializationRequirements OTHER this =
    match status this with
    | CONNECTED =>
        (Throw (WalletInitializationError.notReady "Already connected"), this)
    | READY =>
        (Throw (WalletInitializationError.notReady "Adapter is already initialized"), this)
    | _ => (Normal tt, this)
    end.
Proof.
  intros (Hc & c & Hcfg & Hp). unfold checkInitializationRequirements. run.
  rewrite Hc; simpl. rewrite Hcfg; simpl.
  assert (negb (truthy (prop c "rpcTarget"))
            && negb (strict_eq (prop c "chainNamespace") (JStr OTHER)) = false
          ∧ negb (truthy (prop c "chainId"))
            && negb (strict_eq (prop c "chainNamespace") (JStr OTHER)) = false)
    as [-> ->].
  { destruct Hp as [-> | [-> ->]]; [|done].
    unfold strict_eq. rewrite bool_decide_eq_true_2 by done.
    by rewrite !andb_false_r. }
  run. by destruct (status this).
Qed.

Lemma checkInitializationRequirements_pass (OTHER : string) (this : BaseAdapter) :
  completion (checkInitializationRequirements OTHER this) = Normal tt →
  init_params_ok OTHER this ∧ status this ≠ CONNECTED ∧ status this ≠ READY.
Proof.
  unfold checkInitializationRequirements, init_params_ok. run.
  destruct (truthy (of_opt JStr (clientId this))); simpl; [|done].
  destruct (chainConfig this) as [c|]; simpl; [|done].
  assert (strict_eq (prop c "chainNamespace") (JStr OTHER) = true →
          prop c "chainNamespace" = JStr OTHER) as Hns.
  { unfold strict_eq. by intros ?%bool_decide_eq_true. }
  destruct (truthy (prop c "rpcTarget")) eqn:Hrpc; simpl;
    destruct (truthy (prop c "chainId")) eqn:Hid; simpl;
    destruct (strict_eq (prop c "chainNamespace") (JStr OTHER)) eqn:Ho; simpl; try done;
    destruct (status this); simpl; try done; intros _;
    (split; [|done]); (split; [done|]); exists c; (split; [done|]); auto.
Qed.

Lemma checkConnectionRequirements_pass (WALLET_CONNECT_V2 : string) (this : BaseAdapter) :
  completion (checkConnectionRequirements WALLET_CONNECT_V2 this) = Normal tt ↔
  status this = READY ∨ (status this = CONNECTING ∧ name this = WALLET_CONNECT_V2).
Proof.
  unfold checkConnectionRequirements. run.
  destruct (bool_decide (name this = WALLET_CONNECT_V2)) eqn:Hn;
    [apply bool_decide_eq_true in Hn | apply bool_decide_eq_false in Hn];
    destruct (status this); simpl; split; intros Hp; try done;
    try (by left); try (by right);
    destruct Hp as [Hp | [Hp1 Hp2]]; done.
Qed.

Lemma checkAddChainRequirements_live (this : BaseAdapter) (c : CustomChainConfig)
    (init : bool) :
  init = true ∨ is_Some (provider this) →
  checkAddChainRequirements c init this =
    if strict_eq (currentChainNamespace this) (prop c "chainNamespace")
    then (Normal tt, this)
    else (Throw (WalletOperationsError.chainNamespaceNotAllowed
                   "This adapter doesn't support this chainNamespace"), this).
Proof.
  intros Hlive. unfold checkAddChainRequirements. run.
  assert (negb init && negb (bool_decide (is_Some (provider this))) = false) as ->.
  { destruct Hlive as [-> | Hp]; [done|].
    rewrite (bool_decide_eq_true_2 _ Hp). by rewrite andb_false_r. }
  run. by destruct (strict_eq _ _).
Qed.

(** X2: outside [READY], a non-zero [sessionTime], a non-empty [clientId]
    and a non-empty [web3AuthNetwork] are written to the adapter, also when
    the call then fails on its chain config. *)
Theorem setAdapterSettings_truthy_scalars
    (getChainConfig : JSVal → JSVal → option CustomChainConfig)
    (this : BaseAdapter) (o : BaseAdapterSettings) :
  status this ≠ READY →
  let this' := after (setAdapterSettings getChainConfig o this) in
  (∀ t, o_sessionTime o = Some t → t ≠ 0 → sessionTime this' = t)
  ∧ (∀ x, o_clientId o = Some x → x ≠ "" → clientId this' = Some x)
  ∧ (∀ n, o_web3AuthNetwork o = Some n → n ≠ "" → web3AuthNetwork this' = n).
Proof.
  intros Hst this'. subst this'. rewrite setAdapterSettings_after by done.
  destruct (scalar_settings_truthy o this) as (H1 & H2 & H3).
  assert (∀ t, o_sessionTime o = Some t → t ≠ 0 → sessionTime (scalar_settings o this) = t)
    as H1'.
  { intros t Ht Hnz. apply H1; [done|]. by apply truthy_JNum. }
  assert (∀ x, o_clientId o = Some x → x ≠ "" → clientId (scalar_settings o this) = Some x)
    as H2'.
  { intros x Hx Hnz. apply H2; [done|]. by apply truthy_JStr. }
  assert (∀ n, o_web3AuthNetwork o = Some n → n ≠ "" →
               web3AuthNetwork (scalar_settings o this) = n) as H3'.
  { intros n Hn Hnz. apply H3; [done|]. by apply truthy_JStr. }
  destruct (o_chainConfig o) as [c|]; [|done].
  by destruct (truthy (prop c "chainNamespace")).
Qed.

Lemma setAdapterSettings_truthy_scalars_witness :
  sessionTime (after (setAdapterSettings Sample.registry Sample.settingsNoNamespace
                        Sample.fresh)) = 3600
  ∧ clientId (after (setAdapterSettings Sample.registry Sample.settingsNoNamespace
                       Sample.fresh)) = Some "abc".
Proof.
  destruct (setAdapterSettings_truthy_scalars Sample.registry Sample.fresh
              Sample.settingsNoNamespace ltac:(discriminate)) as (H1 & H2 & _).
  split; [apply H1 | apply H2]; (reflexivity || discriminate).
Defined.

(** X3: a call that fails because the chain config has no namespace is
    not rolled back, but it stops before the chain part: the active chain
    config, the current namespace and the known-chains map are what they
    were, while the core-kit flag given in the same call is already
    written. *)
Theorem setAdapterSettings_failure_keeps_chain_state
    (getChainConfig : JSVal → JSVal → option CustomChainConfig)
    (this : BaseAdapter) (o : BaseAdapterSettings) (c : CustomChainConfig) :
  status this ≠ READY → o_chainConfig o = Some c →
  truthy (prop c "chainNamespace") = false →
  let this' := after (setAdapterSettings getChainConfig o this) in
  chainConfig this' = chainConfig this
  ∧ currentChainNamespace this' = currentChainNamespace this
  ∧ knownChainConfigs this' = knownChainConfigs this
  ∧ (∀ b, o_useCoreKitKey o = Some b → useCoreKitKey this' = Some b).
Proof.
  intros Hst Hc Hns this'. subst this'. rewrite setAdapterSettings_after by done.
  rewrite Hc, Hns.
  destruct (scalar_settings_frame o this) as (_ & H2 & H3 & H4 & _).
  repeat split; try done.
  intros b Hb. unfold scalar_settings. by rewrite Hb.
Qed.

Lemma setAdapterSettings_failure_keeps_chain_state_witness :
  chainConfig (after (setAdapterSettings Sample.registry Sample.settingsNoNamespace
                        Sample.configured)) = chainConfig Sample.configured
  ∧ knownChainConfigs (after (setAdapterSettings Sample.registry Sample.settingsNoNamespace
                                Sample.configured)) = knownChainConfigs Sample.configured.
Proof.
  destruct (setAdapterSettings_failure_keeps_chain_state Sample.registry Sample.configured
              Sample.settingsNoNamespace {[ "chainId" := JStr "0x1" ]}
              ltac:(discriminate) eq_refl eq_refl) as (H1 & _ & H3 & _).
  split; [exact H1 | exact H3].
Defined.

(** X4: no history of [setAdapterSettings] and [addChainConfig] calls
    changes the lifecycle status, the adapter's name, its provider, its
    category, its adapter namespace or the rehydration flag. *)
Theorem calls_frame
    (getChainConfig : JSVal → JSVal → option CustomChainConfig)
    (ops : list Call) (this : BaseAdapter) :
  status (calls getChainConfig ops this) = status this
  ∧ name (calls getChainConfig ops this) = name this
  ∧ provider (calls getChainConfig ops this) = provider this
  ∧ type (calls getChainConfig ops this) = type this
  ∧ adapterNamespace (calls getChainConfig ops this) = adapterNamespace this
  ∧ rehydrated (calls getChainConfig ops this) = rehydrated this.
Proof.
  revert this. induction ops as [|op ops IH]; intros this; [done|].
  unfold calls in *; simpl.
  destruct (IH (call getChainConfig op this)) as (-> & -> & -> & -> & -> & ->).
  destruct op as [c|o]; simpl; [done|].
  destruct (setAdapterSettings_status getChainConfig o this) as (-> & -> & -> & -> & -> & ->).
  done.
Qed.

(** ** Settings, then the guards *)

Lemma settings_then_init
    (getChainConfig : JSVal → JSVal → option CustomChainConfig) (OTHER : string)
    (this : BaseAdapter) (o : BaseAdapterSettings) (c : CustomChainConfig) :
  status this = NOT_READY → o_chainConfig o = Some c →
  truthy (prop c "chainNamespace") = true →
  truthy (of_opt JStr (o_clientId o)) = true ∨ truthy (of_opt JStr (clientId this)) = true →
  let final :=
    spread (or_empty (getChainConfig (prop c "chainNamespace") (prop c "chainId"))) c in
  prop c "chainNamespace" = JStr OTHER
  ∨ (truthy (prop final "rpcTarget") = true ∧ truthy (prop final "chainId") = true) →
  let this' := after (setAdapterSettings getChainConfig o this) in
  completion (setAdapterSettings getChainConfig o this) = Normal tt
  ∧ checkInitializationRequirements OTHER this' = (Normal tt, this').
Proof.
  intros Hst Hc Hns Hcid final Hfinal this'.
  assert (status this ≠ READY) as Hnr by (rewrite Hst; discriminate).
  split.
  { rewrite setAdapterSettings_completion by done. by rewrite Hc, Hns. }
  assert (status this' = NOT_READY) as Hst'.
  { subst this'. by rewrite (proj1 (setAdapterSettings_status _ _ _)). }
  rewrite checkInitializationRequirements_ok; [by rewrite Hst'|].
  subst this'. rewrite setAdapterSettings_after by done. rewrite Hc, Hns. cbv zeta.
  fold final. split.
  - simpl. clear Hfinal. revert Hcid. scalar_cases o; simpl; intros [?|?]; done || congruence.
  - exists final. split; [done|]. destruct Hfinal as [Ho | Hrc]; [left | by right].
    subst final. by rewrite prop_spread_over_truthy.
Qed.

(** X5: settings that bring a client id (or find one already set) and a
    chain config with a namespace make the adapter pass the init-guard in
    [NOT_READY], provided the merged config has an RPC target and a chain
    id, from the caller or from the registry, or the namespace is [OTHER]. *)
Theorem setAdapterSettings_then_init
    (getChainConfig : JSVal → JSVal → option CustomChainConfig) (OTHER : string)
    (this : BaseAdapter) (o : BaseAdapterSettings) (c : CustomChainConfig) :
  status this = NOT_READY → o_chainConfig o = Some c →
  truthy (prop c "chainNamespace") = true →
  truthy (of_opt JStr (o_clientId o)) = true ∨ truthy (of_opt JStr (clientId this)) = true →
  let final :=
    spread (or_empty (getChainConfig (prop c "chainNamespace") (prop c "chainId"))) c in
  prop c "chainNamespace" = JStr OTHER
  ∨ (truthy (prop final "rpcTarget") = true ∧ truthy (prop final "chainId") = true) →
  let this' := after (setAdapterSettings getChainConfig o this) in
  completion (setAdapterSettings getChainConfig o this) = Normal tt
  ∧ checkInitializationRequirements OTHER this' = (Normal tt, this').
Proof. apply settings_then_init. Qed.

Lemma setAdapterSettings_then_init_witness :
  checkInitializationRequirements Sample.OTHER
    (after (setAdapterSettings Sample.registry Sample.settings Sample.fresh))
  = (Normal tt, after (setAdapterSettings Sample.registry Sample.settings Sample.fresh)).
Proof.
  apply (setAdapterSettings_then_init Sample.registry Sample.OTHER Sample.fresh
           Sample.settings Sample.callerConfig eq_refl eq_refl eq_refl (or_introl eq_refl)).
  right. split; vm_compute; reflexivity.
Defined.

(** X6: once settings with a chain config have been accepted, the
    add-chain-guard (with a provider or [isInit]) passes exactly for the
    configs whose namespace is the one those settings carried. *)
Theorem setAdapterSettings_then_add_chain_guard
    (getChainConfig : JSVal → JSVal → option CustomChainConfig)
    (this : BaseAdapter) (o : BaseAdapterSettings) (c c' : CustomChainConfig) (init : bool) :
  status this ≠ READY → o_chainConfig o = Some c →
  truthy (prop c "chainNamespace") = true →
  let this' := after (setAdapterSettings getChainConfig o this) in
  init = true ∨ is_Some (provider this') →
  (prop c' "chainNamespace" = prop c "chainNamespace" ↔
     checkAddChainRequirements c' init this' = (Normal tt, this'))
  ∧ (prop c' "chainNamespace" ≠ prop c "chainNamespace" ↔
     checkAddChainRequirements c' init this' =
       (Throw (WalletOperationsError.chainNamespaceNotAllowed
                 "This adapter doesn't support this chainNamespace"), this')).
Proof.
  intros Hst Hc Hns this' Hlive.
  rewrite (checkAddChainRequirements_live _ _ _ Hlive).
  assert (currentChainNamespace this' = prop c "chainNamespace") as ->.
  { subst this'. rewrite setAdapterSettings_after by done. by rewrite Hc, Hns. }
  unfold strict_eq. case_bool_decide as Heq; split; split; try done; intros; congruence.
Qed.

Lemma setAdapterSettings_then_add_chain_guard_witness :
  checkAddChainRequirements Sample.mainnetPatch true Sample.configured
  ≠ (Normal tt, Sample.configured)
  ∧ checkAddChainRequirements Sample.mainnet true Sample.configured
    = (Normal tt, Sample.configured).
Proof.
  split.
  - destruct (setAdapterSettings_then_add_chain_guard Sample.registry Sample.fresh
                Sample.settings Sample.callerConfig Sample.mainnetPatch true
                ltac:(discriminate) eq_refl eq_refl (or_introl eq_refl)) as (H1 & _).
    intros Hpass. apply H1 in Hpass. vm_compute in Hpass. discriminate.
  - destruct (setAdapterSettings_then_add_chain_guard Sample.registry Sample.fresh
                Sample.settings Sample.callerConfig Sample.mainnet true
                ltac:(discriminate) eq_refl eq_refl (or_introl eq_refl)) as (H1 & _).
    apply H1. vm_compute. reflexivity.
Defined.

(** ** Invariants along a history of calls *)

(** An index is never the name [chainId]. *)
Lemma pretty_N_go_ne_chainId (x : N) (s : string) :
  s ≠ "chainId" → pretty_N_go x s ≠ "chainId".
Proof.
  revert s. induction (N.lt_wf_0 x) as [x _ IH]; intros s Hs.
  assert (x = 0 ∨ 0 < x)%N as [->|Hx] by lia.
  - by rewrite pretty_N_go_0.
  - rewrite pretty_N_go_step by done. apply IH.
    { by apply N.div_lt. }
    unfold pretty_N_char. by repeat case_match.
Qed.

Lemma pretty_nat_ne_chainId (i : nat) : pretty i ≠ "chainId".
Proof.
  unfold pretty, pretty_nat, pretty, pretty_N. case_decide; [done|].
  by apply pretty_N_go_ne_chainId.
Qed.

Lemma string_props_chainId (s : string) (i : nat) : string_props i s !! "chainId" = None.
Proof.
  revert i. induction s as [|a s IH]; intros i; simpl; [done|].
  rewrite lookup_insert_ne by apply pretty_nat_ne_chainId. apply IH.
Qed.

Lemma getProperty_KConfig_stored (known : KnownChainConfigs) (k : string)
    (e : CustomChainConfig) :
  getProperty known k = KConfig e → stored known k = Some e.
Proof.
  unfold getProperty, Object_prototype_get, stored.
  destruct (kc_own known !! k); [congruence|].
  destruct (kc_proto known) as [p|]; [destruct (p !! k)|];
    repeat case_bool_decide; congruence.
Qed.

(** The config that [addChainConfig] writes carries the chain id it is
    written under. *)
Lemma chainKey_entry_for (this : BaseAdapter) (c : CustomChainConfig) :
  keyed this → chainKey (entry_for (knownChainConfigs this) c) = chainKey c.
Proof.
  intros Hkeyed. unfold entry_for. unfold chainKey at 1 3. unfold prop at 1 2.
  destruct (c !! "chainId") as [v|] eqn:Hv.
  { by rewrite (spread_lookup_over _ _ _ _ Hv). }
  rewrite spread_lookup_base by done.
  assert (chainKey c = "undefined") as -> by (unfold chainKey, prop; by rewrite Hv).
  simpl. unfold getProperty.
  destruct (kc_own (knownChainConfigs this) !! "undefined") as [e|] eqn:Hown.
  { simpl. apply (Hkeyed "undefined" e). unfold stored. by rewrite Hown. }
  assert (∀ v : JSVal,
            toPropertyKey
              (default JUndefined (own_enumerable (or_empty_known (KPrim v)) !! "chainId"))
            = "undefined") as Hprim.
  { intros v. unfold or_empty_known. simpl.
    destruct (truthy v); [|done].
    destruct v; simpl; rewrite ?lookup_empty, ?string_props_chainId; done. }
  destruct (kc_proto (knownChainConfigs this)) as [p|]; [destruct (p !! "undefined")|];
    try apply Hprim; apply (Hprim JUndefined).
Qed.

Lemma addChainConfig_keyed (c : CustomChainConfig) (this : BaseAdapter) :
  keyed this → keyed (after (addChainConfig c this)).
Proof.
  intros Hk k e. rewrite addChainConfig_run. unfold after; simpl.
  destruct (decide (k = chainKey c)) as [->|Hne].
  - rewrite stored_setProperty. intros [= <-]. by apply chainKey_entry_for.
  - rewrite stored_setProperty_ne by done. apply Hk.
Qed.

Lemma setAdapterSettings_keyed getChainConfig (o : BaseAdapterSettings) (this : BaseAdapter) :
  keyed this → keyed (after (setAdapterSettings getChainConfig o this)).
Proof.
  intros Hk. destruct (decide (status this = READY)) as [Hst|Hst].
  { by rewrite setAdapterSettings_ready. }
  rewrite setAdapterSettings_run by done. cbv zeta.
  assert (keyed (scalar_settings o this)) as Hs.
  { unfold keyed. by rewrite (proj1 (proj2 (proj2 (scalar_settings_frame o this)))). }
  destruct (o_chainConfig o) as [c|]; [|done].
  destruct (truthy (prop c "chainNamespace")); [|done].
  by apply addChainConfig_keyed.
Qed.

Lemma calls_keyed getChainConfig (ops : list Call) (this : BaseAdapter) :
  keyed this → keyed (calls getChainConfig ops this).
Proof.
  revert this. induction ops as [|op ops IH]; intros this Hk; [done|].
  unfold calls; simpl. apply IH.
  destruct op; simpl; [by apply addChainConfig_keyed | by apply setAdapterSettings_keyed].
Qed.

(** X7: starting with an empty known-chains object, after any history of
    [setAdapterSettings] and [addChainConfig] calls, whenever
    [getChainConfig(id)] returns a config object, that config carries [id]
    as its chain id: configs are never filed under a foreign key. (For an
    inherited name the method may instead return a function, a primitive or
    [Object.prototype].) *)
Theorem known_chains_filed_under_own_id
    (getChainConfig : JSVal → JSVal → option CustomChainConfig)
    (ops : list Call) (this : BaseAdapter) (id : string) (e : CustomChainConfig) :
  knownChainConfigs this = ∅ →
  completion (this_getChainConfig id (calls getChainConfig ops this)) = Normal (KConfig e) →
  toPropertyKey (prop e "chainId") = id.
Proof.
  intros Hempty Hget.
  assert (keyed this) as Hk.
  { intros k e'. rewrite Hempty. unfold stored. simpl. rewrite lookup_empty.
    by case_bool_decide. }
  apply (calls_keyed getChainConfig ops) in Hk.
  rewrite this_getChainConfig_spec in Hget. unfold completion in Hget. simpl in Hget.
  apply Hk. apply getProperty_KConfig_stored.
  destruct (truthy_known _); congruence.
Qed.

Lemma known_chains_filed_under_own_id_witness :
  toPropertyKey (prop Sample.protoConfig "chainId") = "__proto__".
Proof.
  apply (known_chains_filed_under_own_id Sample.registry
           [CallAddChainConfig Sample.mainnet; CallAddChainConfig Sample.protoConfig]
           Sample.fresh "__proto__" _ eq_refl).
  reflexivity.
Defined.

Lemma addChainConfig_active_ok (c : CustomChainConfig) (this : BaseAdapter) :
  ordinary c → active_ok this → active_ok (after (addChainConfig c this)).
Proof.
  intros Hc Ha c' Hc'. destruct (Ha c' Hc') as (Hns & Hreg).
  split; [done|]. by apply addChainConfig_keeps.
Qed.

Lemma setAdapterSettings_active_ok getChainConfig (o : BaseAdapterSettings)
    (this : BaseAdapter) :
  ordinary_call getChainConfig (CallSetAdapterSettings o) →
  active_ok this → active_ok (after (setAdapterSettings getChainConfig o this)).
Proof.
  intros Hord Ha. destruct (decide (status this = READY)) as [Hst|Hst].
  { by rewrite setAdapterSettings_ready. }
  assert (active_ok (scalar_settings o this)) as Hs.
  { destruct (scalar_settings_frame o this) as (_ & H2 & H3 & H4 & _).
    intros c'. unfold registered. rewrite H2, H3, H4. apply Ha. }
  rewrite setAdapterSettings_after by done.
  destruct (o_chainConfig o) as [c|] eqn:Hc; [|done].
  destruct (truthy (prop c "chainNamespace")) eqn:Hns; [|done].
  cbv zeta. intros c'. simpl. intros [= <-]. split.
  - by apply prop_spread_over_truthy.
  - unfold registered. simpl. eexists.
    apply getProperty_setProperty. apply entry_for_ordinary. by apply Hord.
Qed.

Lemma calls_active_ok getChainConfig (ops : list Call) (this : BaseAdapter) :
  Forall (ordinary_call getChainConfig) ops →
  active_ok this → active_ok (calls getChainConfig ops this).
Proof.
  intros Hops. revert this. induction Hops as [|op ops Hop Hops IH]; intros this Hk; [done|].
  unfold calls; simpl. apply IH.
  destruct op; simpl;
    [by apply addChainConfig_active_ok | by apply setAdapterSettings_active_ok].
Qed.

(** X8: starting with no active chain config, after any history of
    [setAdapterSettings] and [addChainConfig] calls with ordinary configs,
    the active chain config, if there is one, passes both chain guards
    (with a provider or [isInit]): its namespace is the current namespace
    and its chain id is registered. *)
Theorem active_chain_config_passes_guards
    (getChainConfig : JSVal → JSVal → option CustomChainConfig)
    (ops : list Call) (this : BaseAdapter) (c : CustomChainConfig) (init : bool) :
  chainConfig this = None →
  Forall (ordinary_call getChainConfig) ops →
  let this' := calls getChainConfig ops this in
  chainConfig this' = Some c →
  init = true ∨ is_Some (provider this') →
  checkAddChainRequirements c init this' = (Normal tt, this')
  ∧ checkSwitchChainRequirements (chainKey c) init this' = (Normal tt, this').
Proof.
  intros Hnone Hops this' Hc Hlive.
  assert (active_ok this) as Ha.
  { intros c'. by rewrite Hnone. }
  apply (calls_active_ok getChainConfig ops _ Hops) in Ha.
  destruct (Ha c Hc) as (Hns & Hreg). fold this' in Hns, Hreg.
  rewrite (checkAddChainRequirements_live _ _ _ Hlive),
    (checkSwitchChainRequirements_live _ _ _ Hlive).
  rewrite (registered_truthy _ _ Hreg). unfold strict_eq. by rewrite bool_decide_eq_true_2.
Qed.

Lemma active_chain_config_passes_guards_witness :
  completion
    (checkSwitchChainRequirements "0x1" true
       (calls Sample.registry
          [CallSetAdapterSettings Sample.settings; CallAddChainConfig Sample.mainnetPatch]
          Sample.fresh))
  = Normal tt.
Proof.
  refine (f_equal fst
            (proj2 (active_chain_config_passes_guards Sample.registry
                      [CallSetAdapterSettings Sample.settings;
                       CallAddChainConfig Sample.mainnetPatch]
                      Sample.fresh (spread Sample.mainnet Sample.callerConfig) true
                      eq_refl _ eq_refl (or_introl eq_refl)))).
  constructor; [|constructor; [|constructor]].
  - intros c [= <-] Hk. discriminate Hk.
  - intros Hk. discriminate Hk.
Defined.

(** ** Registration and lookup *)



(** X10: registrations of two configs commute when their chain ids
    differ and neither is [__proto__]: the adapter is the same whichever is
    added first. *)
Theorem addChainConfig_commute (this : BaseAdapter) (c1 c2 : CustomChainConfig) :
  chainKey c1 ≠ chainKey c2 →
  chainKey c1 ≠ "__proto__" → chainKey c2 ≠ "__proto__" →
  after (addChainConfig c2 (after (addChainConfig c1 this)))
  = after (addChainConfig c1 (after (addChainConfig c2 this))).
Proof.
  intros Hne H1 H2. rewrite !addChainConfig_run. unfold after; simpl.
  unfold entry_for.
  rewrite (getProperty_setProperty_ne _ (chainKey c1) (chainKey c2)) by done.
  rewrite (getProperty_setProperty_ne _ (chainKey c2) (chainKey c1)) by done.
  rewrite !setProperty_define by done. simpl.
  unfold set_knownChainConfigs; simpl. f_equal. f_equal. by apply insert_insert_ne.
Qed.

Lemma addChainConfig_commute_witness :
  after (addChainConfig {[ "chainId" := JStr "0x89" ]}
           (after (addChainConfig Sample.mainnet Sample.fresh)))
  = after (addChainConfig Sample.mainnet
             (after (addChainConfig {[ "chainId" := JStr "0x89" ]} Sample.fresh))).
Proof.
  apply (addChainConfig_commute Sample.fresh Sample.mainnet {[ "chainId" := JStr "0x89" ]});
    discriminate.
Defined.

(** X11: a config without a [chainId] property is filed under the key
    ["undefined"]. Two such configs therefore share one entry, the later
    one winning on common fields, and the switch-chain-guard passes for the
    chain id ["undefined"]. *)
Theorem addChainConfig_without_chainId (this : BaseAdapter) (c1 c2 : CustomChainConfig) :
  c1 !! "chainId" = None → c2 !! "chainId" = None →
  let this' := after (addChainConfig c2 (after (addChainConfig c1 this))) in
  chainKey c1 = "undefined"
  ∧ (∃ e : CustomChainConfig,
       getProperty (knownChainConfigs this') "undefined" = KConfig e
       ∧ (∀ k v, c2 !! k = Some v → e !! k = Some v)
       ∧ (∀ k v, c2 !! k = None → c1 !! k = Some v → e !! k = Some v))
  ∧ (∀ id : string, id ≠ "undefined" →
       getProperty (knownChainConfigs this') id = getProperty (knownChainConfigs this) id)
  ∧ checkSwitchChainRequirements "undefined" true this' = (Normal tt, this').
Proof.
  intros H1 H2 this'.
  assert (∀ c : CustomChainConfig, c !! "chainId" = None → chainKey c = "undefined") as Hkey.
  { intros c Hc. unfold chainKey, prop. by rewrite Hc. }
  assert (∀ c : CustomChainConfig, c !! "chainId" = None → ordinary c) as Hord.
  { intros c Hc Hk. by rewrite (Hkey c Hc) in Hk. }
  assert (getProperty (knownChainConfigs this') "undefined"
          = KConfig (spread (entry_for (knownChainConfigs this) c1) c2)) as Hentry.
  { subst this'. rewrite <- (Hkey c2 H2) at 1. rewrite addChainConfig_read by auto.
    unfold entry_for at 1. rewrite (Hkey c2 H2), <- (Hkey c1 H1).
    by rewrite addChainConfig_read by auto. }
  split; [by apply Hkey|]. split; [|split].
  - eexists. split; [exact Hentry|]. split.
    + intros k v Hv. by apply spread_lookup_over.
    + intros k v Hn Hv. rewrite spread_lookup_base by done. by apply spread_lookup_over.
  - intros id Hid. subst this'.
    rewrite addChainConfig_read_ne by (rewrite Hkey; done).
    by rewrite addChainConfig_read_ne by (rewrite Hkey; done).
  - rewrite checkSwitchChainRequirements_live by by left. by rewrite Hentry.
Qed.

Lemma addChainConfig_without_chainId_witness :
  completion
    (checkSwitchChainRequirements "undefined" true
       (after (addChainConfig {[ "ticker" := JStr "B" ]}
                 (after (addChainConfig {[ "chainNamespace" := JStr "other" ]} Sample.fresh)))))
  = Normal tt.
Proof.
  assert (({[ "chainNamespace" := JStr "other" ]} : CustomChainConfig) !! "chainId" = None)
    as H1 by reflexivity.
  assert (({[ "ticker" := JStr "B" ]} : CustomChainConfig) !! "chainId" = None)
    as H2 by reflexivity.
  destruct (addChainConfig_without_chainId Sample.fresh _ _ H1 H2) as (_ & _ & _ & H).
  exact (f_equal fst H).
Defined.

(** ** The guards against each other *)

(** X12: the guards exclude each other. When the disconnect-guard passes
    (which is when [connnected] is true), the connect-guard fails with
    "Already connected" and the init-guard fails too; and the connect-guard
    and the init-guard pass together only for a WalletConnect-v2 adapter
    that is [CONNECTING]. *)
Theorem guards_exclusive (WALLET_CONNECT_V2 OTHER : string) (this : BaseAdapter) :
  (completion (checkDisconnectionRequirements this) = Normal tt ↔
     completion (connnected this) = Normal true)
  ∧ (completion (checkDisconnectionRequirements this) = Normal tt →
     completion (checkConnectionRequirements WALLET_CONNECT_V2 this)
       = Throw (WalletLoginError.connectionError "Already connected")
     ∧ ∃ e : Web3AuthError,
         completion (checkInitializationRequirements OTHER this) = Throw e
         ∧ (kind e = InvalidParams ∨ kind e = NotReady))
  ∧ (completion (checkConnectionRequirements WALLET_CONNECT_V2 this) = Normal tt →
     completion (checkInitializationRequirements OTHER this) = Normal tt →
     status this = CONNECTING ∧ name this = WALLET_CONNECT_V2).
Proof.
  assert (Hdis : completion (checkDisconnectionRequirements this) = Normal tt ↔
                 status this = CONNECTED).
  { unfold checkDisconnectionRequirements. run. by destruct (status this). }
  split; [|split].
  - rewrite Hdis, connnected_spec. unfold completion; simpl.
    split; [by intros -> | by intros [= ?%bool_decide_eq_true]].
  - rewrite Hdis. intros Hst. split.
    + unfold checkConnectionRequirements. run. rewrite Hst. by rewrite andb_false_r.
    + unfold checkInitializationRequirements. run.
      destruct (truthy (of_opt JStr (clientId this))); simpl; [|eauto].
      destruct (chainConfig this) as [c|]; simpl; [|eauto].
      destruct (negb (truthy (prop c "rpcTarget")) && _); simpl; [eauto|].
      destruct (negb (truthy (prop c "chainId")) && _); simpl; [eauto|].
      rewrite Hst. simpl. eauto.
  - intros Hconn Hinit. apply checkConnectionRequirements_pass in Hconn.
    apply checkInitializationRequirements_pass in Hinit as (_ & _ & Hnr).
    by destruct Hconn as [? | ?].
Qed.

Lemma guards_exclusive_witness :
  completion (checkConnectionRequirements Sample.WALLET_CONNECT_V2
                (Sample.with_status CONNECTED Sample.configured))
  = Throw (mkError ConnectionError "Already connected").
Proof.
  destruct (guards_exclusive Sample.WALLET_CONNECT_V2 Sample.OTHER
              (Sample.with_status CONNECTED Sample.configured)) as (_ & H & _).
  destruct (H eq_refl) as (Hc & _). exact Hc.
Defined.

(** X13: with acceptable settings the init-guard also passes while the
    adapter is [CONNECTING], [DISCONNECTED] or [ERRORED]: only [CONNECTED]
    and [READY] block a new initialisation. *)
Theorem checkInitializationRequirements_reinit (OTHER : string) (this : BaseAdapter) :
  init_params_ok OTHER this →
  status this = CONNECTING ∨ status this = DISCONNECTED ∨ status this = ERRORED →
  checkInitializationRequirements OTHER this = (Normal tt, this).
Proof.
  intros Hok Hst. rewrite checkInitializationRequirements_ok by done.
  by destruct Hst as [-> | [-> | ->]].
Qed.

Lemma checkInitializationRequirements_reinit_witness :
  checkInitializationRequirements Sample.OTHER
    (Sample.with_status DISCONNECTED Sample.configured)
  = (Normal tt, Sample.with_status DISCONNECTED Sample.configured).
Proof.
  apply checkInitializationRequirements_reinit.
  - split; [reflexivity|]. eexists. split; [reflexivity|].
    right. split; vm_compute; reflexivity.
  - right. left. reflexivity.
Defined.

(** ** The demo tables *)

Lemma replaceAll_length (pat rep : Ascii.ascii) (s : string) :
  String.length (replaceAll pat rep s) = String.length s.
Proof. induction s as [|a s IH]; simpl; [done | by rewrite IH]. Qed.

Lemma replaceAll_get (pat rep : Ascii.ascii) (s : string) (i : nat) :
  String.get i (replaceAll pat rep s)
  = (λ a, if Ascii.eqb a pat then rep else a) <$> String.get i s.
Proof.
  revert i. induction s as [|a s IH]; intros i; simpl; [done|].
  destruct i as [|i]; [done | apply IH].
Qed.

(** X14: [loginProviderOptions] lists the login providers other than
    "jwt" and "webauthn", in their order; each option's name is its value
    with every underscore turned into a space and every other character
    kept, so it has the same length and no underscore. *)
Theorem loginProviderOptions_spec (LOGIN_PROVIDER : list string) :
  opt_value <$> loginProviderOptions LOGIN_PROVIDER
  = filter (λ x, x ≠ "jwt" ∧ x ≠ "webauthn") LOGIN_PROVIDER
  ∧ (∀ x, x ∈ LOGIN_PROVIDER → x ≠ "jwt" → x ≠ "webauthn" →
       ∃ o, o ∈ loginProviderOptions LOGIN_PROVIDER ∧ opt_value o = x)
  ∧ (∀ o, o ∈ loginProviderOptions LOGIN_PROVIDER →
       opt_value o ∈ LOGIN_PROVIDER
       ∧ opt_value o ≠ "jwt" ∧ opt_value o ≠ "webauthn"
       ∧ String.length (opt_name o) = String.length (opt_value o)
       ∧ (∀ i, String.get i (opt_name o) ≠ Some "_"%char)
       ∧ (∀ i, String.get i (opt_value o) = Some "_"%char →
            String.get i (opt_name o) = Some " "%char)
       ∧ (∀ i a, String.get i (opt_value o) = Some a → a ≠ "_"%char →
            String.get i (opt_name o) = Some a)).
Proof.
  unfold loginProviderOptions. split; [|split].
  - rewrite <- list_fmap_compose. apply list_fmap_id.
  - intros x Hx H1 H2. exists (mkOption (replaceAll "_" " " x) x). split; [|reflexivity].
    apply list_elem_of_fmap. exists x. split; [reflexivity|].
    by apply list_elem_of_filter.
  - intros o (x & -> & (Hne & Hin)%list_elem_of_filter)%list_elem_of_fmap. simpl.
    split; [done|]. split; [tauto|]. split; [tauto|].
    split; [apply replaceAll_length|]. split; [|split].
    + intros i. rewrite replaceAll_get. destruct (String.get i x) as [a|]; simpl; [|done].
      destruct (Ascii.eqb a "_") eqn:E; [done|].
      apply Ascii.eqb_neq in E. congruence.
    + intros i Hi. rewrite replaceAll_get, Hi. done.
    + intros i a Hi Ha. rewrite replaceAll_get, Hi. simpl.
      by rewrite (proj2 (Ascii.eqb_neq a "_")).
Qed.

Lemma loginProviderOptions_spec_witness :
  loginProviderOptions sample_LOGIN_PROVIDER
  = [mkOption "google" "google"; mkOption "email passwordless" "email_passwordless";
     mkOption "sms passwordless" "sms_passwordless"]
  ∧ ∃ o, o ∈ loginProviderOptions sample_LOGIN_PROVIDER ∧ opt_value o = "sms_passwordless".
Proof.
  split; [reflexivity|].
  destruct (loginProviderOptions_spec sample_LOGIN_PROVIDER) as (_ & H & _).
  apply H; [set_solver | discriminate | discriminate].
Defined.

Lemma foldl_insert_lookup {V} (g : string → V) (l : list string)
    (m : gmap string V) (k : string) :
  foldl (λ acc x, <[x := g x]> acc) m l !! k
  = if decide (k ∈ l) then Some (g k) else m !! k.
Proof.
  revert m. induction l as [|x l IH]; intros m; cbn [foldl].
  - rewrite decide_False; [done | apply not_elem_of_nil].
  - rewrite IH. destruct (decide (k ∈ l)) as [Hin|Hnin].
    + rewrite decide_True; [done | by right].
    + destruct (decide (x = k)) as [->|Hne].
      * rewrite lookup_insert_eq, decide_True; [done | by left].
      * rewrite lookup_insert_ne by done. rewrite decide_False; [done|].
        rewrite elem_of_cons. intros [?|?]; congruence.
Qed.

(** X15: [defaultLoginMethod] has an entry for exactly the login
    providers other than "jwt" and "webauthn"; the entry is named after the
    provider (underscores as spaces, followed by " login"), all its texts
    are empty and all its flags are off. *)
Theorem defaultLoginMethod_lookup (LOGIN_PROVIDER : list string) (v : string) :
  (v ∈ LOGIN_PROVIDER → v ≠ "jwt" → v ≠ "webauthn" →
     defaultLoginMethod LOGIN_PROVIDER !! v
     = Some (mkFormConfig (replaceAll "_" " " v +:+ " login") "" "" "" ""
               false false false false))
  ∧ (v ∉ LOGIN_PROVIDER ∨ v = "jwt" ∨ v = "webauthn" →
     defaultLoginMethod LOGIN_PROVIDER !! v = None).
Proof.
  assert (defaultLoginMethod LOGIN_PROVIDER !! v
          = if decide (v ∈ filter (λ x, x ≠ "jwt" ∧ x ≠ "webauthn") LOGIN_PROVIDER)
            then Some (mkFormConfig (replaceAll "_" " " v +:+ " login") "" "" "" ""
                         false false false false)
            else None) as ->.
  { unfold defaultLoginMethod, loginProviderOptions. rewrite foldl_fmap. simpl.
    by rewrite (foldl_insert_lookup
                  (λ x, mkFormConfig (replaceAll "_" " " x +:+ " login") "" "" "" ""
                          false false false false)). }
  split.
  - intros Hin H1 H2. rewrite decide_True; [done|]. by apply list_elem_of_filter.
  - intros Hno. rewrite decide_False; [done|].
    intros ((H1 & H2) & Hin)%list_elem_of_filter. destruct Hno as [?|[?|?]]; done.
Qed.

Lemma defaultLoginMethod_lookup_witness :
  defaultLoginMethod sample_LOGIN_PROVIDER !! "email_passwordless"
  = Some (mkFormConfig "email passwordless login" "" "" "" "" false false false false)
  ∧ defaultLoginMethod sample_LOGIN_PROVIDER !! "jwt" = None.
Proof.
  split.
  - destruct (defaultLoginMethod_lookup sample_LOGIN_PROVIDER "email_passwordless")
      as (H & _).
    rewrite H; [reflexivity | set_solver | discriminate | discriminate].
  - destruct (defaultLoginMethod_lookup sample_LOGIN_PROVIDER "jwt") as (_ & H).
    apply H. right. left. reflexivity.
Defined.

Lemma chainConfigs_entry
    (EIP155 SOLANA CASPER XRPL OTHER : string) (ENV : JSVal)
    (ns : string) (cfgs : list CustomChainConfig) (c : CustomChainConfig) :
  chainConfigs EIP155 SOLANA CASPER XRPL OTHER ENV !! ns = Some cfgs → c ∈ cfgs →
  prop c "chainNamespace" = JStr ns
  ∧ truthy (prop c "chainId") = true
  ∧ (truthy (prop c "rpcTarget") = true
     ∨ (ns = SOLANA ∧ prop c "chainId" = JStr "0x1" ∧ prop c "rpcTarget" = ENV))
  ∧ NoDup (chainKey <$> cfgs).
Proof.
  unfold chainConfigs. rewrite !lookup_insert, lookup_empty.
  repeat case_decide; intros Heq Hin; simplify_eq;
    try (by apply elem_of_nil in Hin);
    repeat (apply elem_of_cons in Hin as [-> | Hin]);
    try (by apply elem_of_nil in Hin);
    (split; [vm_compute; reflexivity|]);
    (split; [vm_compute; reflexivity|]);
    (split; [first [ left; vm_compute; reflexivity
                   | right; repeat split; vm_compute; reflexivity ]|]);
    apply (bool_decide_unpack _); vm_compute; exact I.
Qed.

(** X16: the demo table [chainConfigs] is well formed: every config
    listed under a namespace carries that namespace and a chain id, and no
    chain id occurs twice under one namespace; every config carries an RPC
    target, except that the one of Solana mainnet is whatever the
    environment supplies. Hence settings made of a client id and a config
    of the table make a [NOT_READY] adapter pass the init-guard, whatever
    the registry holds; for the Solana mainnet config this needs the
    environment variable to be set. *)
Theorem chainConfigs_accepted
    (EIP155 SOLANA CASPER XRPL OTHER : string) (VITE_SOLANA_MAINNET_RPC : JSVal)
    (getChainConfig : JSVal → JSVal → option CustomChainConfig)
    (ns : string) (cfgs : list CustomChainConfig) (c : CustomChainConfig)
    (this : BaseAdapter) (o : BaseAdapterSettings) :
  chainConfigs EIP155 SOLANA CASPER XRPL OTHER VITE_SOLANA_MAINNET_RPC !! ns = Some cfgs →
  c ∈ cfgs →
  (prop c "chainNamespace" = JStr ns
   ∧ truthy (prop c "chainId") = true
   ∧ (truthy (prop c "rpcTarget") = true
      ∨ (ns = SOLANA ∧ prop c "chainId" = JStr "0x1"
         ∧ prop c "rpcTarget" = VITE_SOLANA_MAINNET_RPC))
   ∧ NoDup (chainKey <$> cfgs))
  ∧ (ns ≠ "" →
     (ns = SOLANA → prop c "chainId" = JStr "0x1" →
      truthy VITE_SOLANA_MAINNET_RPC = true) →
     status this = NOT_READY → o_chainConfig o = Some c →
     truthy (of_opt JStr (o_clientId o)) = true →
     let this' := after (setAdapterSettings getChainConfig o this) in
     checkInitializationRequirements OTHER this' = (Normal tt, this')).
Proof.
  intros Htab Hin.
  destruct (chainConfigs_entry _ _ _ _ _ _ _ _ _ Htab Hin) as (Hns & Hid & Hrpc & Hnd).
  split; [done|].
  intros Hne Henv Hst Hc Hcid this'.
  assert (truthy (prop c "chainNamespace") = true) as Htns.
  { rewrite Hns. by apply truthy_JStr. }
  assert (truthy (prop c "rpcTarget") = true) as Hrpc'.
  { destruct Hrpc as [? | (Hsol & H0x1 & ->)]; [done | by apply Henv]. }
  apply (settings_then_init getChainConfig OTHER this o c Hst Hc Htns (or_introl Hcid)).
  right. rewrite !prop_spread_over_truthy by auto. auto.
Qed.

Lemma chainConfigs_accepted_witness :
  checkInitializationRequirements "other"
    (after (setAdapterSettings Sample.registry
              (mkSettings (Some "abc") None (Some Sample.mainnet) None None) Sample.fresh))
  = (Normal tt,
     after (setAdapterSettings Sample.registry
              (mkSettings (Some "abc") None (Some Sample.mainnet) None None) Sample.fresh)).
Proof.
  refine (proj2 (chainConfigs_accepted "eip155" "solana" "casper" "xrpl" "other"
                   JUndefined Sample.registry "eip155"
                   (default [] (chainConfigs "eip155" "solana" "casper" "xrpl" "other"
                                  JUndefined !! "eip155"))
                   Sample.mainnet Sample.fresh
                   (mkSettings (Some "abc") None (Some Sample.mainnet) None None) _ _)
                _ _ _ _ _).
  - reflexivity.
  - apply (list_elem_of_here Sample.mainnet).
  - discriminate.
  - discriminate.
  - reflexivity.
  - reflexivity.
  - reflexivity.
Defined.

(** ** The prototype chain at work *)

(** On a fresh adapter [getChainConfig("constructor")] returns a method of
    [Object.prototype]. A config registered under the chain id [__proto__]
    becomes the prototype of the known-chains object and creates no own
    property; its fields then read as if they were known chains. *)
Lemma getChainConfig_inherited_members :
  completion (this_getChainConfig "constructor" Sample.fresh)
  = Normal (KFunction "constructor")
  ∧ knownChainConfigs (after (addChainConfig Sample.protoConfig Sample.fresh))
    = mkKnown ∅ (Some Sample.protoConfig)
  ∧ completion (this_getChainConfig "ticker"
                  (after (addChainConfig Sample.protoConfig Sample.fresh)))
    = Normal (KPrim (JStr "ETH"))
  ∧ completion (this_getChainConfig "ticker" Sample.fresh) = Normal (KPrim JNull).
Proof. repeat split; reflexivity. Qed.

(** With the chain id [__proto__] the order of two registrations matters:
    added after it, a config whose chain id names one of its fields is
    spread over the characters of that field's string. *)
Lemma addChainConfig_order_matters_at_proto :
  kc_own (knownChainConfigs
            (after (addChainConfig {[ "chainId" := JStr "ticker" ]}
                      (after (addChainConfig Sample.protoConfig Sample.fresh)))))
    !! "ticker"
  = Some (list_to_map [("chainId", JStr "ticker");
                       ("0", JStr "E"); ("1", JStr "T"); ("2", JStr "H")])
  ∧ kc_own (knownChainConfigs
              (after (addChainConfig Sample.protoConfig
                        (after (addChainConfig {[ "chainId" := JStr "ticker" ]}
                                  Sample.fresh)))))
      !! "ticker"
    = Some {[ "chainId" := JStr "ticker" ]}.
Proof. split; vm_compute; reflexivity. Qed.
